(** * Session Matcher by Appointment ID: the upload, join, filter and export
    script of [unverify_checker.py], embedded as Rocq functions.

    The script reads two uploaded tables, checks their columns, joins them
    on ["Appointment ID"], keeps the rows whose ["Completed"] text is "yes"
    and offers the result as a spreadsheet.  The calls it makes into pandas
    (astype, merge, boolean indexing, head, empty) are written out as
    functions on a small table type, as pandas 2 documents them; the two
    parsers and the spreadsheet writer, which work on file bytes, are
    variables of a section.  The page header (title, help text, the two
    upload widgets) and the limits of memory are left out. *)

From Stdlib Require Import List String Ascii Bool Arith ZArith Lia.
From Stdlib Require Import DecimalString.
From Stdlib Require DecimalZ.
Import ListNotations.
Open Scope string_scope.
Open Scope nat_scope.
Open Scope list_scope.

Set Implicit Arguments.

(** Python's [+] on text. *)
Infix "+++" := String.append (right associativity, at level 60).

(** ** Text

    A Python [str] is a sequence of code points.  One [ascii] stands for one
    code point below 256; text with code points above U+00FF is outside the
    model. *)

Module Text.

(** [str.isspace] on one code point below 256: TAB..CR, FS..US, SPACE,
    NEL (0x85) and NBSP (0xA0). *)
Definition isspace (c : ascii) : bool :=
  let n := nat_of_ascii c in
  ((9 <=? n) && (n <=? 13)) || ((28 <=? n) && (n <=? 32))
  || (n =? 133) || (n =? 160).

(** [str.lower] on one code point below 256: A..Z and the accented capitals
    0xC0..0xDE (0xD7, the multiplication sign, apart) move up by 32. *)
Definition lower_char (c : ascii) : ascii :=
  let n := nat_of_ascii c in
  if ((65 <=? n) && (n <=? 90))
     || ((192 <=? n) && (n <=? 222) && negb (n =? 215))
  then ascii_of_nat (n + 32) else c.

Fixpoint lower (s : string) : string :=
  match s with
  | EmptyString => EmptyString
  | String c t => String (lower_char c) (lower t)
  end.

Fixpoint lstrip (s : string) : string :=
  match s with
  | EmptyString => EmptyString
  | String c t => if isspace c then lstrip t else s
  end.

Fixpoint rstrip (s : string) : string :=
  match s with
  | EmptyString => EmptyString
  | String c t =>
      match rstrip t with
      | EmptyString => if isspace c then EmptyString else String c EmptyString
      | t' => String c t'
      end
  end.

(** [str.strip()] with no argument. *)
Definition strip (s : string) : string := rstrip (lstrip s).

(** Whitespace only. *)
Fixpoint all_space (s : string) : bool :=
  match s with
  | EmptyString => true
  | String c t => isspace c && all_space t
  end.

(** The first, the last character is whitespace. *)
Definition head_is_space (s : string) : bool :=
  match s with
  | EmptyString => false
  | String c _ => isspace c
  end.

Fixpoint last_is_space (s : string) : bool :=
  match s with
  | EmptyString => false
  | String c EmptyString => isspace c
  | String _ t => last_is_space t
  end.

(** [s.endswith(suffix)]: [s] from some position on is [suffix]. *)
Fixpoint endswith (s suffix : string) : bool :=
  String.eqb s suffix
  || match s with
     | EmptyString => false
     | String _ t => endswith t suffix
     end.

(** [sep.join(parts)]. *)
Definition join (sep : string) (parts : list string) : string :=
  String.concat sep parts.

(** [str(n)] of a Python int. *)
Definition str_of_int (z : Z) : string := NilZero.string_of_int (Z.to_int z).

(** [str(len(x))]. *)
Definition str_of_len (n : nat) : string := str_of_int (Z.of_nat n).

End Text.

(** ** Cells and tables *)

(** A scalar of a pandas column.  A float64 is carried by the text that
    Python's [str] gives it ("123.0", "1e+16"); [CNaN] is the missing
    value. *)
Inductive cell : Type :=
| CInt (z : Z)
| CFloat (repr : string)
| CStr (s : string)
| CBool (b : bool)
| CNaN.

Definition cell_eqb (a b : cell) : bool :=
  match a, b with
  | CInt x, CInt y => Z.eqb x y
  | CFloat x, CFloat y => String.eqb x y
  | CStr x, CStr y => String.eqb x y
  | CBool x, CBool y => Bool.eqb x y
  | CNaN, CNaN => true
  | _, _ => false
  end.

(** What [astype(str)] makes of one value: Python's [str]. *)
Definition py_str (c : cell) : string :=
  match c with
  | CInt z => Text.str_of_int z
  | CFloat repr => repr
  | CStr s => s
  | CBool true => "True"
  | CBool false => "False"
  | CNaN => "nan"
  end.

Definition row : Type := list cell.

(** A DataFrame, row by row: the column labels and, for each row, one cell
    per column.  The row index plays no part in the script (the export is
    written with [index=False]) and is left out. *)
Record DataFrame : Type := mkDataFrame {
  columns : list string;
  rows : list row
}.

(** [c in df.columns]. *)
Definition has_column (c : string) (df : DataFrame) : bool :=
  existsb (String.eqb c) (columns df).

(** Position of the first column labelled [c]. *)
Fixpoint index_of (c : string) (cols : list string) : option nat :=
  match cols with
  | [] => None
  | x :: t => if String.eqb c x then Some 0
              else option_map S (index_of c t)
  end.

(** The cell of row [r] in column position [i]. *)
Definition cell_at (i : nat) (r : row) : cell := nth i r CNaN.

(** [df.empty]: some axis has length zero. *)
Definition empty (df : DataFrame) : bool :=
  match columns df, rows df with
  | [], _ => true
  | _, [] => true
  | _, _ => false
  end.

(** [len(df)]. *)
Definition len (df : DataFrame) : nat := List.length (rows df).

(** [df.head(n)]. *)
Definition head (n : nat) (df : DataFrame) : DataFrame :=
  mkDataFrame (columns df) (firstn n (rows df)).

(** Every row has one cell per column. *)
Definition well_formed (df : DataFrame) : Prop :=
  Forall (fun r => List.length r = List.length (columns df)) (rows df).

(** ** The script's constants *)

Definition KEY : string := "Appointment ID".
Definition STATUS : string := "Completed".
Definition SUFFIXES : string * string := ("_aloha", "_unbilled").
Definition SHEET_NAME : string := "Matched_Completed_Yes".
Definition FILE_NAME : string := "matched_sessions_completed_yes.xlsx".
Definition MIME : string :=
  "application/vnd.openxmlformats-officedocument.spreadsheetml.sheet".

Definition MSG_NO_FILE : string := "No file uploaded".
Definition MSG_UNSUPPORTED : string :=
  "Unsupported file type. Please upload CSV or Excel.".
Definition MSG_EMPTY : string := "File appears to be empty.".
Definition MSG_NO_STATUS : string :=
  "Merged result does not contain 'Completed' column from Aloha file.".
Definition MSG_NO_ROWS : string :=
  "No rows found where Completed = 'Yes' after inner join.".
Definition MSG_UPLOAD_BOTH : string := "Please upload both files to start.".

(** ** validate_columns *)

(** [missing = [c for c in required_cols if c not in df.columns]]. *)
Definition missing_columns (df : DataFrame) (required_cols : list string)
  : list string :=
  filter (fun c => negb (has_column c df)) required_cols.

(** Truth value of a Python list. *)
Definition truthy_list {A : Type} (l : list A) : bool :=
  match l with [] => false | _ :: _ => true end.

Definition validate_columns (df : DataFrame) (required_cols : list string)
    (file_label : string) : option string :=
  let missing := missing_columns df required_cols in
  if truthy_list missing
  then Some (file_label +++ " is missing required column(s): "
             +++ Text.join ", " missing)
  else None.

(** ** The pandas calls of the script *)

(** What the pandas calls of the script can raise. *)
Inductive exception : Type :=
| KeyError (label : string)
| ValueError (msg : string)
| MergeError (dups : list string)
| IllegalCharacterError (text : string).

(** Apply [f] to the element at position [i]. *)
Fixpoint update_at {A : Type} (i : nat) (f : A -> A) (l : list A) : list A :=
  match l, i with
  | [], _ => []
  | x :: t, 0 => f x :: t
  | x :: t, S j => x :: update_at j f t
  end.

(** The list without its element at position [i]. *)
Fixpoint drop_at {A : Type} (i : nat) (l : list A) : list A :=
  match l, i with
  | [], _ => []
  | _ :: t, 0 => t
  | x :: t, S j => x :: drop_at j t
  end.

(** What [astype(str)] makes of one cell. *)
Definition to_text (v : cell) : cell := CStr (py_str v).

(** [df[c] = df[c].astype(str)]: every value of column [c] becomes its
    text.  [df[c]] raises KeyError when no column has that label. *)
Definition astype_str_column (c : string) (df : DataFrame)
  : exception + DataFrame :=
  match index_of c (columns df) with
  | Some i =>
      inr (mkDataFrame (columns df) (map (update_at i to_text) (rows df)))
  | None => inl (KeyError c)
  end.

(** [Index.duplicated()]: marks each label that already occurred earlier. *)
Fixpoint duplicated_from (seen l : list string) : list bool :=
  match l with
  | [] => []
  | x :: t => existsb (String.eqb x) seen :: duplicated_from (x :: seen) t
  end.

Definition duplicated (l : list string) : list bool := duplicated_from [] l.

(** [labels[mask]]. *)
Fixpoint select {A : Type} (mask : list bool) (l : list A) : list A :=
  match mask, l with
  | b :: m, x :: t => if b then x :: select m t else select m t
  | _, _ => []
  end.

(** [a & b] on two masks. *)
Fixpoint mask_and (a b : list bool) : list bool :=
  match a, b with
  | x :: a', y :: b' => (x && y) :: mask_and a' b'
  | _, _ => []
  end.

(** The renamer of merge: a label that both sides have gets the suffix. *)
Definition renamer (to_rename : list string) (suffix x : string) : string :=
  if existsb (String.eqb x) to_rename then x +++ suffix else x.

(** The labels that renaming made into duplicates:
    [labels[labels.duplicated() & ~orig.duplicated()]]; none when the
    labels are distinct, which pandas tests first. *)
Definition suffix_dups (orig labels : list string) : list string :=
  select (mask_and (duplicated labels) (map negb (duplicated orig))) labels.

(** The rows of an inner join on the cells at [li] (left) and [ri] (right):
    left rows in their order, each with its matching right rows in their
    order; the right row gives up its key cell.  At the one call of the
    script both key columns hold text, so equal cells are equal texts. *)
Definition join_rows (li ri : nat) (lrows rrows : list row) : list row :=
  flat_map
    (fun a =>
       map (fun b => a ++ drop_at ri b)
           (filter (fun b => cell_eqb (cell_at li a) (cell_at ri b)) rrows))
    lrows.

(** [left.intersection(right)] on labels: those of the left that the right
    has too. *)
Definition overlap (lcols rcols : list string) : list string :=
  filter (fun c => existsb (String.eqb c) rcols) lcols.

(** [pd.merge(left, right, on=on, how="inner", suffixes=suffixes)].
    The key column of the result is the left one, the right one is dropped;
    labels that both sides have (the key apart) are renamed with the
    suffixes; a renaming that repeats a label within one side raises
    MergeError (pandas 2; a label repeated across the two sides is let
    through). *)
Definition merge (left right : DataFrame) (on : string)
    (suffixes : string * string) : exception + DataFrame :=
  match index_of on (columns left), index_of on (columns right) with
  | Some li, Some ri =>
      let (lsuffix, rsuffix) := suffixes in
      let rcols := drop_at ri (columns right) in
      let to_rename := overlap (columns left) rcols in
      if truthy_list to_rename
         && String.eqb lsuffix "" && String.eqb rsuffix ""
      then inl (ValueError "columns overlap but no suffix specified")
      else
        let llabels := map (renamer to_rename lsuffix) (columns left) in
        let rlabels := map (renamer to_rename rsuffix) rcols in
        let dups :=
          suffix_dups (columns left) llabels ++ suffix_dups rcols rlabels in
        if truthy_list dups then inl (MergeError dups)
        else inr (mkDataFrame (llabels ++ rlabels)
                    (join_rows li ri (rows left) (rows right)))
  | _, _ => inl (KeyError on)
  end.

(** One entry of the mask
    [merged["Completed"].astype(str).str.strip().str.lower().eq("yes")]. *)
Definition completed_yes (v : cell) : bool :=
  String.eqb (Text.lower (Text.strip (py_str v))) "yes".

(** [merged[mask]] for that mask: the rows whose entry is true, under the
    same labels. *)
Definition select_completed_yes (merged : DataFrame)
  : exception + DataFrame :=
  match index_of STATUS (columns merged) with
  | Some i =>
      inr (mkDataFrame (columns merged)
             (filter (fun r => completed_yes (cell_at i r)) (rows merged)))
  | None => inl (KeyError STATUS)
  end.

(** Lines 88 to 99: both key columns to text, then the inner join. *)
Definition merged_of (df1 df2 : DataFrame) : exception + DataFrame :=
  match astype_str_column KEY df1 with
  | inl e => inl e
  | inr df1' =>
      match astype_str_column KEY df2 with
      | inl e => inl e
      | inr df2' => merge df1' df2' KEY SUFFIXES
      end
  end.

(** ** The script *)

(** An uploaded file: its name and its bytes. *)
Record UploadedFile : Type := mkUploadedFile {
  name : string;
  content : list Byte.byte
}.

(** What the script puts on the page, in order. *)
Inductive widget : Type :=
| st_error (msg : string)
| st_info (msg : string)
| st_subheader (text : string)
| st_write (text : string)
| st_dataframe (df : DataFrame)
| st_download_button (label : string) (data : list Byte.byte)
                     (file_name mime : string).

(** Lines 113 to 115: the header and the two counts. *)
Definition counts (merged matched_completed_yes : DataFrame) : list widget :=
  [st_subheader "Matched Sessions (Inner Join, Completed = Yes)";
   st_write ("Total inner-joined rows: **"
             +++ Text.str_of_len (len merged) +++ "**");
   st_write ("Rows with `Completed = 'Yes'`: **"
             +++ Text.str_of_len (len matched_completed_yes) +++ "**")].

(** No label occurs twice. *)
Fixpoint distinct (labels : list string) : bool :=
  match labels with
  | [] => true
  | x :: t => negb (existsb (String.eqb x) t) && distinct t
  end.

(** What [st.dataframe] raises on a table with a repeated label (the text
    goes on to list the labels). *)
Definition DUPLICATE_LABELS : exception :=
  ValueError "Duplicate column names found".

(** [st.dataframe(df)]: the table is shown, unless a label is repeated. *)
Definition show_dataframe (df : DataFrame) : list widget * option exception :=
  if distinct (columns df) then ([st_dataframe df], None)
  else ([], Some DUPLICATE_LABELS).

(** One step after another: the second adds what it shows, unless the first
    ended in an exception. *)
Definition and_then (first next : list widget * option exception)
  : list widget * option exception :=
  match first with
  | (shown, Some e) => (shown, Some e)
  | (shown, None) => (shown ++ fst next, snd next)
  end.

(** Truth value of an error slot: [None] and the empty text are false. *)
Definition truthy (err : option string) : bool :=
  match err with
  | Some s => negb (String.eqb s "")
  | None => false
  end.

Section Script.

(** [pd.read_csv] and [pd.read_excel] on the bytes of a file: the table, or
    the text of the exception raised. *)
Variable read_csv : list Byte.byte -> string + DataFrame.
Variable read_excel : list Byte.byte -> string + DataFrame.

(** The bytes that [ExcelWriter] leaves in the buffer after
    [df.to_excel(writer, sheet_name=..., index=False)], or the exception
    that the writer raised (openpyxl refuses a text with a control
    character, pandas a table larger than a sheet). *)
Variable to_excel : string -> DataFrame -> exception + list Byte.byte.

(** Lines 33 to 39: the parser that the lower-cased name selects, run on
    the file; [None] when the name selects none. *)
Definition parse (f : UploadedFile) : option (string + DataFrame) :=
  let filename := Text.lower (name f) in
  if Text.endswith filename ".csv" then Some (read_csv (content f))
  else if Text.endswith filename ".xlsx" || Text.endswith filename ".xls"
  then Some (read_excel (content f))
  else None.

(** Lines 40 to 45: the exception text, the empty table, or the table. *)
Definition loaded (parsed : string + DataFrame)
  : option DataFrame * option string :=
  match parsed with
  | inl e => (None, Some ("Error reading file: " +++ e))
  | inr df => if empty df then (None, Some MSG_EMPTY) else (Some df, None)
  end.

Definition read_table (file : option UploadedFile)
  : option DataFrame * option string :=
  match file with
  | None => (None, Some MSG_NO_FILE)
  | Some f =>
      match parse f with
      | None => (None, Some MSG_UNSUPPORTED)
      | Some parsed => loaded parsed
      end
  end.

(** Lines 120 to 137: the download when there is something to download and
    the writer wrote it, the note when there is nothing. *)
Definition offer_download (matched_completed_yes : DataFrame)
  : list widget * option exception :=
  if negb (empty matched_completed_yes)
  then
    match to_excel SHEET_NAME matched_completed_yes with
    | inr data =>
        ([st_download_button "Download Matched Sessions (Completed = Yes)"
            data FILE_NAME MIME], None)
    | inl e => ([], Some e)
    end
  else ([st_info MSG_NO_ROWS], None).

(** Lines 113 to 137, on the joined and the filtered table: header and
    counts, the preview, then the download or the note. *)
Definition result_page (merged matched_completed_yes : DataFrame)
  : list widget * option exception :=
  and_then
    (counts merged matched_completed_yes, None)
    (and_then (show_dataframe (head 200 matched_completed_yes))
              (offer_download matched_completed_yes)).

(** Lines 102 to 137, on the joined table. *)
Definition report (merged : DataFrame) : list widget * option exception :=
  if negb (has_column STATUS merged)
  then ([st_error MSG_NO_STATUS], None)
  else
    match select_completed_yes merged with
    | inl e => ([], Some e)
    | inr matched_completed_yes => result_page merged matched_completed_yes
    end.

(** [if err: st.error(prefix + err)]. *)
Definition show_error (prefix : string) (err : option string) : list widget :=
  match err with
  | Some e => if truthy err then [st_error (prefix +++ e)] else []
  | None => []
  end.

(** Lines 78 to 137, on the two tables read. *)
Definition main_logic (df1 df2 : DataFrame) : list widget * option exception :=
  let err_cols1 := validate_columns df1 [KEY; STATUS] "File 1 (Aloha)" in
  let err_cols2 := validate_columns df2 [KEY] "File 2 (Unbilled)" in
  let shown := show_error "" err_cols1 ++ show_error "" err_cols2 in
  if negb (truthy err_cols1) && negb (truthy err_cols2)
  then
    match merged_of df1 df2 with
    | inl e => (shown, Some e)
    | inr merged =>
        let (out, raised) := report merged in (shown ++ out, raised)
    end
  else (shown, None).

(** Lines 63 to 139: what is shown for the two upload slots, and the
    exception that ended the run, if one did. *)
Definition read_slot (file : option UploadedFile)
  : option DataFrame * option string :=
  match file with Some _ => read_table file | None => (None, None) end.

Definition script (file1 file2 : option UploadedFile)
  : list widget * option exception :=
  let '(df1, err1) := read_slot file1 in
  let '(df2, err2) := read_slot file2 in
  let shown :=
    show_error "File 1 (Aloha): " err1
    ++ show_error "File 2 (Unbilled): " err2 in
  match df1, df2 with
  | Some d1, Some d2 =>
      if negb (truthy err1) && negb (truthy err2)
      then let (out, raised) := main_logic d1 d2 in (shown ++ out, raised)
      else (shown ++ [st_info MSG_UPLOAD_BOTH], None)
  | _, _ => (shown ++ [st_info MSG_UPLOAD_BOTH], None)
  end.

(** The value of [matched_completed_yes] in a run that gets to line 105. *)
Definition filtered_result (file1 file2 : option UploadedFile)
  : option DataFrame :=
  match read_slot file1, read_slot file2 with
  | (Some d1, err1), (Some d2, err2) =>
      if negb (truthy err1) && negb (truthy err2)
         && negb (truthy (validate_columns d1 [KEY; STATUS] "File 1 (Aloha)"))
         && negb (truthy (validate_columns d2 [KEY] "File 2 (Unbilled)"))
      then
        match merged_of d1 d2 with
        | inr merged =>
            if has_column STATUS merged
            then match select_completed_yes merged with
                 | inr matched => Some matched
                 | inl _ => None
                 end
            else None
        | inl _ => None
        end
      else None
  | _, _ => None
  end.

End Script.

(** ** Notions the properties are stated with *)

(** A table as [read_table] hands it on and [validate_columns] accepts it:
    distinct labels, one cell per column in every row, and every required
    label present. *)
Definition valid_table (required_cols : list string) (df : DataFrame) : Prop :=
  NoDup (columns df) /\ well_formed df
  /\ missing_columns df required_cols = [].

(** The key of each row as the join compares it: the text of its
    ["Appointment ID"] cell. *)
Definition key_texts (df : DataFrame) : list string :=
  match index_of KEY (columns df) with
  | Some i => map (fun r => py_str (cell_at i r)) (rows df)
  | None => []
  end.

(** Number of rows of [df] with key [k]. *)
Definition count_key (k : string) (df : DataFrame) : nat :=
  count_occ string_dec (key_texts df) k.

(** The key values that both tables have, each once. *)
Definition shared_keys (a b : DataFrame) : list string :=
  filter (fun k => existsb (String.eqb k) (key_texts b))
         (nodup string_dec (key_texts a)).

(** Sum over the shared keys of (rows of [a] with it) x (rows of [b] with
    it). *)
Definition expected_join_size (a b : DataFrame) : nat :=
  list_sum (map (fun k => count_key k a * count_key k b) (shared_keys a b)).

(** [df[c]] read in one row, for a label [c] that the table has once: the
    cell under that label.  (On a repeated label pandas hands back every
    column of that label; here the first one is taken.) *)
Definition lookup (df : DataFrame) (c : string) (r : row) : option cell :=
  option_map (fun i => cell_at i r) (index_of c (columns df)).

(** The joined row that merge makes of a left row [a] and a right row [b]
    of the two tables, once their keys are text. *)
Definition joined_row (df1 df2 : DataFrame) (a b : row) : row :=
  match index_of KEY (columns df1), index_of KEY (columns df2) with
  | Some li, Some ri =>
      update_at li to_text a ++ drop_at ri (update_at ri to_text b)
  | _, _ => []
  end.

(** The error boxes among the widgets: their messages. *)
Fixpoint errors (ws : list widget) : list string :=
  match ws with
  | [] => []
  | st_error msg :: t => msg :: errors t
  | _ :: t => errors t
  end.

(** A label other than the key that both tables have, and whose suffixed
    form is already a label of the same table and of that table only. *)
Definition label_clash (df1 df2 : DataFrame) : Prop :=
  exists c, c <> KEY /\ In c (columns df1) /\ In c (columns df2)
    /\ ((In (c +++ "_aloha") (columns df1)
         /\ ~ In (c +++ "_aloha") (columns df2))
        \/ (In (c +++ "_unbilled") (columns df2)
            /\ ~ In (c +++ "_unbilled") (columns df1))).

(** Only error boxes and notes. *)
Definition only_messages (ws : list widget) : Prop :=
  Forall (fun w => match w with
                   | st_error _ | st_info _ => True
                   | _ => False
                   end) ws.

(** Where position [j] of a list is found once position [i] is dropped: in
    place when it comes before [i], one down when it comes after. *)
Definition shifted (i j : nat) : nat := if j <? i then j else j - 1.

(** [l1] is [l2] with some elements left out, the others in their order. *)
Inductive subseq {A : Type} : list A -> list A -> Prop :=
| subseq_nil : subseq [] []
| subseq_skip : forall x l1 l2, subseq l1 l2 -> subseq l1 (x :: l2)
| subseq_keep : forall x l1 l2, subseq l1 l2 -> subseq (x :: l1) (x :: l2).

(** The download buttons among the widgets: bytes, file name, MIME type. *)
Fixpoint exported (ws : list widget)
  : list (list Byte.byte * string * string) :=
  match ws with
  | [] => []
  | st_download_button _ data file_name mime :: t =>
      (data, file_name, mime) :: exported t
  | _ :: t => exported t
  end.

(** ** The exported sheet, read back

    What [pd.read_excel] makes of the sheet that [to_excel] (openpyxl,
    [index=False]) wrote for a table, told at the level of tables.  Only
    the tables called plain below are covered: their texts are written as
    they are and their numbers as numbers, and on reading a column in which
    every value is a number or the text of one becomes a column of
    numbers.  Texts that the writer or the reader treats specially
    (formulas, error codes, control characters, the spellings of missing
    values, of truth values and of infinity, number-like texts other than
    plain integers) and missing values, floats and truth values are left
    out. *)

Module Excel.

















End Excel.

(** ** Sample inputs *)

Module Sample.

(** A CSV that holds its header line and nothing else, once parsed. *)
Definition header_only : DataFrame :=
  mkDataFrame ["Appointment ID"; "Completed"] [].

Definition csv_gives (df : DataFrame) : list Byte.byte -> string + DataFrame :=
  fun _ => inr df.

Definition unreadable : list Byte.byte -> string + DataFrame :=
  fun _ => inl "File is not a zip file".

Definition visits_csv : UploadedFile := mkUploadedFile "visits.csv" [].

(** The two tables of the worked scenario and their join. *)
Definition aloha : DataFrame :=
  mkDataFrame ["Appointment ID"; "Completed"; "Name"]
    [[CInt 1; CStr "Yes"; CStr "X"]; [CInt 2; CStr "No"; CStr "Y"]].

Definition unbilled : DataFrame :=
  mkDataFrame ["Appointment ID"; "Amount"]
    [[CInt 1; CInt 50]; [CInt 3; CInt 75]].

Definition joined : DataFrame :=
  mkDataFrame ["Appointment ID"; "Completed"; "Name"; "Amount"]
    [[CStr "1"; CStr "Yes"; CStr "X"; CInt 50]].

(** Tables with disjoint keys where the first already has the label that
    the suffix would make of ["X"]. *)
Definition aloha_with_suffixed_label : DataFrame :=
  mkDataFrame ["Appointment ID"; "Completed"; "X"; "X_aloha"]
    [[CInt 1; CStr "Yes"; CInt 10; CInt 11]].

Definition unbilled_with_x : DataFrame :=
  mkDataFrame ["Appointment ID"; "X"] [[CInt 2; CInt 20]].


(** A first table whose key column has a blank, so that pandas holds its
    numbers as floats; and second tables with the key 123 as a number. *)
Definition aloha_float_key : DataFrame :=
  mkDataFrame ["Appointment ID"; "Completed"]
    [[CFloat "123.0"; CStr "Yes"]; [CNaN; CStr "Yes"]].

Definition unbilled_number_key : DataFrame :=
  mkDataFrame ["Appointment ID"; "Amount"] [[CInt 123; CInt 50]].

(** The key 123 as a number in one table and as text in the other. *)
Definition aloha_number_key : DataFrame :=
  mkDataFrame ["Appointment ID"; "Completed"] [[CInt 123; CStr "Yes"]].

Definition unbilled_text_key : DataFrame :=
  mkDataFrame ["Appointment ID"; "Amount"] [[CStr "123"; CInt 50]].

Definition joined_123 : DataFrame :=
  mkDataFrame ["Appointment ID"; "Completed"; "Amount"]
    [[CStr "123"; CStr "Yes"; CInt 50]].

(** Two tables that both have a ["Notes"] column, and their join. *)
Definition aloha_notes : DataFrame :=
  mkDataFrame ["Appointment ID"; "Completed"; "Notes"]
    [[CInt 7; CStr "Yes"; CStr "seen"]].

Definition unbilled_notes : DataFrame :=
  mkDataFrame ["Appointment ID"; "Notes"; "Amount"]
    [[CInt 7; CStr "open"; CInt 50]].

Definition joined_notes : DataFrame :=
  mkDataFrame
    ["Appointment ID"; "Completed"; "Notes_aloha"; "Notes_unbilled"; "Amount"]
    [[CStr "7"; CStr "Yes"; CStr "seen"; CStr "open"; CInt 50]].

(** Two tables that both have an ["X"] column, where the first also has the
    label that the suffix makes of the second's ["X"]; and their join. *)
Definition aloha_x_and_x_unbilled : DataFrame :=
  mkDataFrame ["Appointment ID"; "Completed"; "X"; "X_unbilled"]
    [[CInt 1; CStr "Yes"; CInt 10; CInt 11]].

Definition unbilled_x : DataFrame :=
  mkDataFrame ["Appointment ID"; "X"] [[CInt 1; CInt 20]].

Definition joined_x_twice : DataFrame :=
  mkDataFrame
    ["Appointment ID"; "Completed"; "X_aloha"; "X_unbilled"; "X_unbilled"]
    [[CStr "1"; CStr "Yes"; CInt 10; CInt 11; CInt 20]].

(** A second table that has a ["Completed"] column of its own, and a first
    table that has none. *)
Definition unbilled_with_status : DataFrame :=
  mkDataFrame ["Appointment ID"; "Completed"; "Amount"]
    [[CInt 1; CStr "Yes"; CInt 50]].

Definition joined_status_twice : DataFrame :=
  mkDataFrame
    ["Appointment ID"; "Completed_aloha"; "Name"; "Completed_unbilled";
     "Amount"]
    [[CStr "1"; CStr "Yes"; CStr "X"; CStr "Yes"; CInt 50]].

Definition aloha_without_status : DataFrame :=
  mkDataFrame ["Appointment ID"; "Name"] [[CInt 1; CStr "X"]].

Definition aloha_csv : UploadedFile := mkUploadedFile "aloha.csv" [].
Definition unbilled_xlsx : UploadedFile := mkUploadedFile "Unbilled.XLSX" [].

(** A writer that refuses every table. *)
Definition refusing : string -> DataFrame -> exception + list Byte.byte :=
  fun _ _ => inl (IllegalCharacterError "").

(** A writer that never raises and leaves no bytes. *)
Definition no_bytes : string -> DataFrame -> exception + list Byte.byte :=
  fun _ _ => inr [].

Definition notes_txt : UploadedFile := mkUploadedFile "notes.txt" [].

(** A joined table with mixed status texts, and what the filter keeps. *)
Definition mixed : DataFrame :=
  mkDataFrame ["Appointment ID"; "Completed"]
    [[CStr "1"; CStr "Yes"]; [CStr "2"; CStr "No"]; [CStr "3"; CStr " yes "];
     [CStr "4"; CNaN]].

Definition kept : DataFrame :=
  mkDataFrame ["Appointment ID"; "Completed"]
    [[CStr "1"; CStr "Yes"]; [CStr "3"; CStr " yes "]].

End Sample.

(** * Properties *)

Unset Implicit Arguments.

(** ** Labels and positions *)

Lemma existsb_eqb_In (c : string) (l : list string) :
  existsb (String.eqb c) l = true <-> In c l.
Proof.
  rewrite existsb_exists. split.
  - intros [x [Hin Heq]]. apply String.eqb_eq in Heq. now subst.
  - intros Hin. exists c. split; [assumption | apply String.eqb_refl].
Qed.

Lemma existsb_eqb_not_In (c : string) (l : list string) :
  existsb (String.eqb c) l = false <-> ~ In c l.
Proof.
  rewrite <- existsb_eqb_In. destruct (existsb (String.eqb c) l); split;
    congruence.
Qed.

Lemma has_column_In (c : string) (df : DataFrame) :
  has_column c df = true <-> In c (columns df).
Proof. apply existsb_eqb_In. Qed.

Lemma index_of_nth_error (c : string) (l : list string) (i : nat) :
  index_of c l = Some i -> nth_error l i = Some c.
Proof.
  revert i. induction l as [|x t IH]; intros i; simpl; [discriminate|].
  destruct (String.eqb c x) eqn:E.
  - intros [= <-]. apply String.eqb_eq in E. now subst.
  - destruct (index_of c t) as [j|]; simpl; [|discriminate].
    intros [= <-]. simpl. now apply IH.
Qed.

Lemma index_of_lt (c : string) (l : list string) (i : nat) :
  index_of c l = Some i -> i < List.length l.
Proof.
  intros H. apply index_of_nth_error in H.
  apply nth_error_Some. congruence.
Qed.

Lemma index_of_In (c : string) (l : list string) :
  In c l <-> exists i, index_of c l = Some i.
Proof.
  split.
  - induction l as [|x t IH]; simpl; [tauto|].
    intros Hin. destruct (String.eqb c x) eqn:E; [now exists 0|].
    destruct Hin as [->|Hin]; [rewrite String.eqb_refl in E; discriminate|].
    destruct (IH Hin) as [j ->]. now exists (S j).
  - intros [i H]. apply index_of_nth_error in H. eapply nth_error_In; eauto.
Qed.

Lemma index_of_first (c : string) (l : list string) (i : nat) :
  NoDup l -> nth_error l i = Some c -> index_of c l = Some i.
Proof.
  revert i. induction l as [|x t IH]; intros i Hnd Hn.
  - destruct i; discriminate.
  - inversion Hnd as [|? ? Hx Ht]; subst. destruct i as [|j]; simpl in *.
    + injection Hn as ->. now rewrite String.eqb_refl.
    + destruct (String.eqb c x) eqn:E.
      * apply String.eqb_eq in E. subst. exfalso. apply Hx.
        eapply nth_error_In; eauto.
      * now rewrite (IH j Ht Hn).
Qed.

Lemma endswith_spec (s suffix : string) :
  Text.endswith s suffix = true <-> exists p, s = p +++ suffix.
Proof.
  induction s as [|c t IH]; cbn [Text.endswith].
  - rewrite orb_false_r, String.eqb_eq. split.
    + intros <-. now exists "".
    + intros [p Hp]. destruct p; simpl in Hp; [assumption | discriminate].
  - rewrite orb_true_iff, String.eqb_eq, IH. split.
    + intros [<- | [p ->]]; [now exists "" | now exists (String c p)].
    + intros [p Hp]. destruct p as [|c' p]; simpl in Hp; [now left|].
      injection Hp as <- ->. right. now exists p.
Qed.

(** ** Stripping *)

Lemma lstrip_spec (s : string) :
  exists l, s = l +++ Text.lstrip s /\ Text.all_space l = true
            /\ Text.head_is_space (Text.lstrip s) = false.
Proof.
  induction s as [|c t [l [Ht [Hl Hh]]]]; simpl.
  - now exists "".
  - destruct (Text.isspace c) eqn:E.
    + exists (String c l). simpl. rewrite E, Hl. now rewrite <- Ht.
    + exists "". simpl. auto.
Qed.

Lemma rstrip_spec (s : string) :
  exists r, s = Text.rstrip s +++ r /\ Text.all_space r = true
            /\ Text.last_is_space (Text.rstrip s) = false.
Proof.
  induction s as [|c t [r [Ht [Hr Hl]]]]; simpl.
  - now exists "".
  - destruct (Text.rstrip t) as [|c' t'] eqn:E.
    + simpl in Ht. subst t. destruct (Text.isspace c) eqn:Ec.
      * exists (String c r). simpl. now rewrite Ec, Hr.
      * exists r. simpl. auto.
    + exists r. split; [now rewrite Ht at 1|]. split; [assumption|].
      exact Hl.
Qed.

Lemma rstrip_head (s : string) :
  Text.head_is_space s = false ->
  Text.head_is_space (Text.rstrip s) = false.
Proof.
  destruct s as [|c t]; simpl; [auto|].
  intros H. destruct (Text.rstrip t); [rewrite H|]; simpl; auto.
Qed.

(** [strip] takes a stretch of whitespace off each end, and what is left
    neither starts nor ends with whitespace. *)
Lemma strip_spec (s : string) :
  exists l r, s = l +++ Text.strip s +++ r
    /\ Text.all_space l = true /\ Text.all_space r = true
    /\ Text.head_is_space (Text.strip s) = false
    /\ Text.last_is_space (Text.strip s) = false.
Proof.
  destruct (lstrip_spec s) as [l [Hs [Hl Hh]]].
  destruct (rstrip_spec (Text.lstrip s)) as [r [Ht [Hr Hlast]]].
  exists l, r. unfold Text.strip.
  split; [now rewrite <- Ht|].
  auto using rstrip_head.
Qed.

(** ** validate_columns *)

Lemma filter_subseq {A : Type} (f : A -> bool) (l : list A) :
  subseq (filter f l) l.
Proof.
  induction l as [|x t IH]; simpl; [constructor|].
  destruct (f x); now constructor.
Qed.

Lemma count_occ_filter_true (f : string -> bool) (l : list string) (c : string) :
  f c = true ->
  count_occ string_dec (filter f l) c = count_occ string_dec l c.
Proof.
  intros Hc. induction l as [|x t IH]; simpl; [reflexivity|].
  destruct (f x) eqn:E; simpl; destruct (string_dec x c) as [->|Hne];
    try congruence.
Qed.

(** C4: the validator's list of missing labels holds exactly the required
    labels that are not labels of the table, each as often as it was asked
    for and in the order asked (a subsequence of the required list), all of
    them and not only the first; the table passes ([None]) exactly when
    that list is empty, and otherwise the message names the whole list. *)
Theorem C4_validator_lists_every_missing_column
    (df : DataFrame) (required_cols : list string) (file_label : string) :
  let missing := missing_columns df required_cols in
  (forall c, In c missing <-> In c required_cols /\ ~ In c (columns df))
  /\ subseq missing required_cols
  /\ (forall c, ~ In c (columns df) ->
        count_occ string_dec missing c = count_occ string_dec required_cols c)
  /\ (validate_columns df required_cols file_label = None <-> missing = [])
  /\ (missing = [] \/
      validate_columns df required_cols file_label
      = Some (file_label +++ " is missing required column(s): "
              +++ Text.join ", " missing)).
Proof.
  cbv zeta. unfold validate_columns, missing_columns.
  assert (Habs : forall c, ~ In c (columns df) ->
                   negb (has_column c df) = true).
  { intros c Hn. apply negb_true_iff.
    destruct (has_column c df) eqn:E; [|reflexivity].
    apply has_column_In in E. contradiction. }
  split; [|split; [|split; [|split]]].
  - intros c. rewrite filter_In, negb_true_iff. split.
    + intros [Hr Hn]. split; [assumption|]. intros Hin.
      apply has_column_In in Hin. congruence.
    + intros [Hr Hn]. split; [assumption|].
      apply negb_true_iff. now apply Habs.
  - apply filter_subseq.
  - intros c Hn. apply count_occ_filter_true. now apply Habs.
  - destruct (filter _ required_cols); simpl; split; congruence.
  - destruct (filter _ required_cols); simpl; [now left | now right].
Qed.

(** ** read_table *)

Lemma loaded_not_unsupported (parsed : string + DataFrame) :
  loaded parsed <> (None, Some MSG_UNSUPPORTED).
Proof.
  destruct parsed as [e|df]; simpl.
  - intros H. discriminate H.
  - destruct (empty df); intros H; discriminate H.
Qed.

(** C10: the loader chooses its parser from the lower-cased name alone: a
    name ending in ".csv" goes to the CSV parser, otherwise one ending in
    ".xlsx" or ".xls" goes to the spreadsheet parser, and the unsupported
    message is the answer exactly when the lower-cased name ends in none of
    the three; two files with the same bytes whose names differ only in
    letter case load alike, so "DATA.CSV" is read as CSV and "DATA.XLSX" as
    a spreadsheet. *)
Theorem C10_extension_dispatch_ignores_case
    (read_csv read_excel : list Byte.byte -> string + DataFrame)
    (f : UploadedFile) :
  let filename := Text.lower (name f) in
  (read_table read_csv read_excel (Some f)
   = if Text.endswith filename ".csv" then loaded (read_csv (content f))
     else if Text.endswith filename ".xlsx" || Text.endswith filename ".xls"
          then loaded (read_excel (content f))
          else (None, Some MSG_UNSUPPORTED))
  /\ (read_table read_csv read_excel (Some f) = (None, Some MSG_UNSUPPORTED)
      <-> Text.endswith filename ".csv" = false
          /\ Text.endswith filename ".xlsx" = false
          /\ Text.endswith filename ".xls" = false)
  /\ (forall g, Text.lower (name g) = filename -> content g = content f ->
        read_table read_csv read_excel (Some g)
        = read_table read_csv read_excel (Some f))
  /\ (forall bytes,
        read_table read_csv read_excel (Some (mkUploadedFile "DATA.CSV" bytes))
        = loaded (read_csv bytes))
  /\ (forall bytes,
        read_table read_csv read_excel (Some (mkUploadedFile "DATA.XLSX" bytes))
        = loaded (read_excel bytes)).
Proof.
  cbv zeta. unfold read_table, parse.
  split; [|split; [|split; [|split]]].
  - destruct (Text.endswith _ ".csv"); [reflexivity|].
    destruct (Text.endswith _ ".xlsx" || Text.endswith _ ".xls"); reflexivity.
  - destruct (Text.endswith _ ".csv") eqn:Ecsv.
    + split; [intros H; now apply loaded_not_unsupported in H|].
      intros [H _]; discriminate.
    + destruct (Text.endswith _ ".xlsx") eqn:Ex; simpl.
      * split; [intros H; now apply loaded_not_unsupported in H|].
        intros [_ [H _]]; discriminate.
      * destruct (Text.endswith _ ".xls") eqn:El.
        -- split; [intros H; now apply loaded_not_unsupported in H|].
           intros [_ [_ H]]; discriminate.
        -- tauto.
  - intros g -> ->. reflexivity.
  - reflexivity.
  - reflexivity.
Qed.

(** The loader sends the file name of the export to the spreadsheet
    parser. *)
Lemma export_name_read_as_excel
    (read_csv read_excel : list Byte.byte -> string + DataFrame)
    (bytes : list Byte.byte) :
  read_table read_csv read_excel (Some (mkUploadedFile FILE_NAME bytes))
  = loaded (read_excel bytes).
Proof. reflexivity. Qed.

(** C5: when the parser chosen for the file returns a table that has no
    rows, such as the table of a CSV with a header line only, the loader
    returns no table and the empty-file message. *)
Theorem C5_zero_rows_fails_as_empty
    (read_csv read_excel : list Byte.byte -> string + DataFrame)
    (f : UploadedFile) (df : DataFrame) :
  parse read_csv read_excel f = Some (inr df) ->
  rows df = [] ->
  read_table read_csv read_excel (Some f) = (None, Some MSG_EMPTY).
Proof.
  intros Hparse Hrows. unfold read_table. rewrite Hparse. simpl.
  unfold empty. rewrite Hrows. now destruct (columns df).
Qed.

Lemma C5_header_only_csv :
  read_table (Sample.csv_gives Sample.header_only) Sample.unreadable
    (Some Sample.visits_csv)
  = (None, Some MSG_EMPTY).
Proof.
  apply (@C5_zero_rows_fails_as_empty _ _ Sample.visits_csv Sample.header_only);
    reflexivity.
Defined.

(** ** The status filter *)

Lemma filter_idem {A : Type} (f : A -> bool) (l : list A) :
  filter f (filter f l) = filter f l.
Proof.
  induction l as [|x t IH]; simpl; [reflexivity|].
  destruct (f x) eqn:E; simpl; [rewrite E; now f_equal | assumption].
Qed.

Lemma select_completed_yes_inr (merged matched : DataFrame) :
  select_completed_yes merged = inr matched ->
  exists i, index_of STATUS (columns merged) = Some i
    /\ columns matched = columns merged
    /\ rows matched
       = filter (fun r => completed_yes (cell_at i r)) (rows merged).
Proof.
  unfold select_completed_yes.
  destruct (index_of STATUS (columns merged)) as [i|]; [|discriminate].
  intros [= <-]. exists i. auto.
Qed.

(** C2: the filter keeps a joined row exactly when the text of its
    ["Completed"] cell, stripped of surrounding whitespace and lower-cased,
    is "yes"; it keeps the labels and the order of the rows.  So "Yes",
    " yes " and "YES" pass, and "No", the empty text and "yess" do not. *)
Theorem C2_status_filter_keeps_trimmed_lowercase_yes
    (merged matched : DataFrame) :
  select_completed_yes merged = inr matched ->
  columns matched = columns merged
  /\ subseq (rows matched) (rows merged)
  /\ (forall r, In r (rows matched) <->
        In r (rows merged)
        /\ exists v, lookup merged STATUS r = Some v
                     /\ Text.lower (Text.strip (py_str v)) = "yes")
  /\ map completed_yes [CStr "Yes"; CStr " yes "; CStr "YES"]
     = [true; true; true]
  /\ map completed_yes [CStr "No"; CStr ""; CStr "yess"]
     = [false; false; false].
Proof.
  intros H. apply select_completed_yes_inr in H.
  destruct H as [i [Hi [Hc Hr]]].
  split; [assumption|]. split; [rewrite Hr; apply filter_subseq|].
  split; [|split; reflexivity].
  intros r. rewrite Hr, filter_In. unfold lookup, completed_yes.
  rewrite Hi. simpl. rewrite String.eqb_eq. split.
  - intros [Hin Hy]. split; [assumption|]. now exists (cell_at i r).
  - intros [Hin [v [[= <-] Hy]]]. now split.
Qed.

Lemma C2_mixed_statuses :
  subseq (rows Sample.kept) (rows Sample.mixed).
Proof.
  exact (proj1 (proj2
           (@C2_status_filter_keeps_trimmed_lowercase_yes
              Sample.mixed Sample.kept eq_refl))).
Defined.

(** C8: filtering a filtered table again returns it unchanged; the filter
    raises (KeyError) only on a table without a ["Completed"] label. *)
Theorem C8_status_filter_idempotent (merged : DataFrame) :
  match select_completed_yes merged with
  | inr matched => select_completed_yes matched = inr matched
  | inl e => e = KeyError STATUS /\ has_column STATUS merged = false
  end.
Proof.
  unfold select_completed_yes.
  destruct (index_of STATUS (columns merged)) as [i|] eqn:Hi; simpl.
  - rewrite Hi. now rewrite filter_idem.
  - split; [reflexivity|]. apply existsb_eqb_not_In. intros Hin.
    apply index_of_In in Hin. destruct Hin as [j Hj]. congruence.
Qed.

(** ** The download *)

Lemma exported_app (a b : list widget) :
  exported (a ++ b) = exported a ++ exported b.
Proof.
  induction a as [|w t IH]; simpl; [reflexivity|].
  destruct w; simpl; now rewrite IH.
Qed.

Lemma exported_show_error (prefix : string) (err : option string) :
  exported (show_error prefix err) = [].
Proof.
  unfold show_error. destruct err as [e|]; [|reflexivity].
  now destruct (truthy (Some e)).
Qed.

(** ** Rows and positions *)

Lemma update_at_length {A : Type} (i : nat) (f : A -> A) (l : list A) :
  List.length (update_at i f l) = List.length l.
Proof.
  revert i. induction l as [|x t IH]; intros [|j]; simpl; auto.
Qed.

Lemma nth_update_at_same {A : Type} (i : nat) (f : A -> A) (l : list A) (d : A) :
  i < List.length l -> nth i (update_at i f l) d = f (nth i l d).
Proof.
  revert i. induction l as [|x t IH]; intros [|j] H; simpl in *; try lia.
  - reflexivity.
  - apply IH. lia.
Qed.

Lemma nth_update_at_other {A : Type} (i j : nat) (f : A -> A) (l : list A) (d : A) :
  i <> j -> nth j (update_at i f l) d = nth j l d.
Proof.
  revert i j. induction l as [|x t IH]; intros [|i] [|j] H; simpl; auto.
  - congruence.
Qed.

Lemma drop_at_length {A : Type} (i : nat) (l : list A) :
  i < List.length l -> List.length (drop_at i l) = List.length l - 1.
Proof.
  revert i. induction l as [|x t IH]; intros [|j] H; simpl in *; try lia.
  rewrite IH; lia.
Qed.

Lemma nth_drop_at {A : Type} (i j : nat) (l : list A) (d : A) :
  i <> j -> nth (shifted i j) (drop_at i l) d = nth j l d.
Proof.
  unfold shifted. revert i j.
  induction l as [|x t IH]; intros i j H.
  - assert (Hnil : forall n, nth n (@nil A) d = d) by (now intros [|n]).
    replace (drop_at i (@nil A)) with (@nil A) by (now destruct i).
    now rewrite !Hnil.
  - destruct i as [|i], j as [|j]; simpl; try congruence.
    + now rewrite Nat.sub_0_r.
    + assert (Hij : i <> j) by congruence. specialize (IH i j Hij).
      change (S j <? S i) with (j <? i).
      destruct (j <? i) eqn:E; [assumption|].
      apply Nat.ltb_ge in E. destruct j as [|j]; [lia|].
      simpl in *. now rewrite Nat.sub_0_r in IH.
Qed.

Lemma nth_error_drop_at {A : Type} (i j : nat) (l : list A) (x : A) :
  i <> j -> nth_error l j = Some x ->
  nth_error (drop_at i l) (shifted i j) = Some x.
Proof.
  unfold shifted. revert i j.
  induction l as [|y t IH]; intros i j H Hn.
  - destruct j; discriminate.
  - destruct i as [|i], j as [|j]; simpl in *; try congruence.
    + now rewrite Nat.sub_0_r.
    + assert (Hij : i <> j) by congruence. specialize (IH i j Hij Hn).
      change (S j <? S i) with (j <? i).
      destruct (j <? i) eqn:E; [assumption|].
      apply Nat.ltb_ge in E. destruct j as [|j]; [lia|].
      simpl in *. now rewrite Nat.sub_0_r in IH.
Qed.

Lemma In_drop_at {A : Type} (i : nat) (l : list A) (x : A) :
  In x (drop_at i l) -> In x l.
Proof.
  revert i. induction l as [|y t IH]; intros [|j]; simpl; auto.
  intros [H|H]; eauto.
Qed.

Lemma NoDup_drop_at {A : Type} (i : nat) (l : list A) :
  NoDup l -> NoDup (drop_at i l).
Proof.
  revert i. induction l as [|y t IH]; intros [|j] H; simpl; auto;
    inversion H; subst; auto.
  constructor; auto. intros Hin. now apply In_drop_at in Hin.
Qed.

(** Dropping the first position of a label leaves the label out when the
    labels are distinct. *)
Lemma drop_at_index_of_not_In (c : string) (l : list string) (i : nat) :
  NoDup l -> index_of c l = Some i -> ~ In c (drop_at i l).
Proof.
  revert i. induction l as [|y t IH]; intros i Hnd Hi; simpl in *;
    [discriminate|].
  inversion Hnd; subst.
  destruct (String.eqb c y) eqn:E.
  - injection Hi as <-. apply String.eqb_eq in E. now subst.
  - destruct (index_of c t) as [j|]; simpl in Hi; [|discriminate].
    injection Hi as <-. simpl. intros [->|Hin].
    + rewrite String.eqb_refl in E. discriminate.
    + now apply (IH j).
Qed.

Lemma In_drop_at_other (c : string) (l : list string) (i : nat) (x : string) :
  index_of c l = Some i -> In x l -> x <> c -> In x (drop_at i l).
Proof.
  revert i. induction l as [|y t IH]; intros i Hi Hin Hne; simpl in *;
    [contradiction|].
  destruct (String.eqb c y) eqn:E.
  - injection Hi as <-. apply String.eqb_eq in E. subst. simpl.
    destruct Hin as [Heq|Hin]; [congruence | assumption].
  - destruct (index_of c t) as [j|]; simpl in Hi; [|discriminate].
    injection Hi as <-. simpl. destruct Hin as [->|Hin]; [now left|].
    right. now apply (IH j).
Qed.

(** ** The join, taken apart *)

(** The labels that merge gives the joined table of [df1] and [df2] whose
    keys sit at [ri] in [df2]. *)
Lemma merged_of_cases (df1 df2 : DataFrame) (li ri : nat) :
  index_of KEY (columns df1) = Some li ->
  index_of KEY (columns df2) = Some ri ->
  let rcols := drop_at ri (columns df2) in
  let to_rename := overlap (columns df1) rcols in
  let llabels := map (renamer to_rename "_aloha") (columns df1) in
  let rlabels := map (renamer to_rename "_unbilled") rcols in
  merged_of df1 df2
  = inr (mkDataFrame (llabels ++ rlabels)
           (join_rows li ri (map (update_at li to_text) (rows df1))
                            (map (update_at ri to_text) (rows df2))))
  \/ exists dups, merged_of df1 df2 = inl (MergeError dups).
Proof.
  intros H1 H2. cbv zeta.
  unfold merged_of, astype_str_column. rewrite H1, H2.
  unfold merge. cbn [columns rows]. rewrite H1, H2.
  unfold SUFFIXES.
  change (String.eqb "_aloha" "") with false.
  rewrite andb_false_r. cbn [andb].
  match goal with |- context [truthy_list ?d] => destruct (truthy_list d) end.
  - right. eexists. reflexivity.
  - now left.
Qed.

Lemma merged_of_inr (df1 df2 merged : DataFrame) :
  merged_of df1 df2 = inr merged ->
  exists li ri,
    index_of KEY (columns df1) = Some li
    /\ index_of KEY (columns df2) = Some ri
    /\ columns merged
       = map (renamer (overlap (columns df1) (drop_at ri (columns df2)))
                "_aloha") (columns df1)
         ++ map (renamer (overlap (columns df1) (drop_at ri (columns df2)))
                   "_unbilled") (drop_at ri (columns df2))
    /\ rows merged
       = join_rows li ri (map (update_at li to_text) (rows df1))
                         (map (update_at ri to_text) (rows df2)).
Proof.
  intros H.
  destruct (index_of KEY (columns df1)) as [li|] eqn:H1.
  - destruct (index_of KEY (columns df2)) as [ri|] eqn:H2.
    + destruct (merged_of_cases df1 df2 li ri H1 H2) as [E|[d E]];
        rewrite E in H; [|discriminate].
      injection H as <-. exists li, ri. auto.
    + unfold merged_of, astype_str_column in H. rewrite H1, H2 in H.
      discriminate.
  - unfold merged_of, astype_str_column in H. rewrite H1 in H. discriminate.
Qed.

(** A table that passed [validate_columns] has its key column, and every
    row has a cell there. *)
Lemma valid_table_key (required_cols : list string) (df : DataFrame) :
  In KEY required_cols -> valid_table required_cols df ->
  exists i, index_of KEY (columns df) = Some i
    /\ Forall (fun r => i < List.length r) (rows df).
Proof.
  intros Hreq [_ [Hwf Hmiss]].
  assert (Hin : In KEY (columns df)).
  { destruct (has_column KEY df) eqn:E; [now apply has_column_In|].
    assert (Hm : In KEY (missing_columns df required_cols)).
    { apply filter_In. split; [assumption|]. now rewrite E. }
    rewrite Hmiss in Hm. contradiction. }
  apply index_of_In in Hin. destruct Hin as [i Hi]. exists i.
  split; [assumption|]. apply index_of_lt in Hi.
  unfold well_formed in Hwf. rewrite Forall_forall in *.
  intros r Hr. rewrite (Hwf r Hr). assumption.
Qed.

(** ** Counting the joined rows *)

Lemma cell_at_to_text (i : nat) (r : row) :
  i < List.length r ->
  cell_at i (update_at i to_text r) = CStr (py_str (cell_at i r)).
Proof. intros H. unfold cell_at. now rewrite nth_update_at_same. Qed.

Lemma matching_rows_count (ri : nat) (k : string) (rrows : list row) :
  Forall (fun b => ri < List.length b) rrows ->
  List.length
    (filter (fun b => cell_eqb (CStr k) (cell_at ri b))
            (map (update_at ri to_text) rrows))
  = count_occ string_dec (map (fun b => py_str (cell_at ri b)) rrows) k.
Proof.
  induction 1 as [|b t Hb Ht IH]; [reflexivity|].
  cbn [map filter count_occ]. rewrite (cell_at_to_text ri b Hb).
  cbn [cell_eqb].
  destruct (string_dec (py_str (cell_at ri b)) k) as [->|Hne].
  - rewrite String.eqb_refl. cbn [List.length]. f_equal. exact IH.
  - destruct (String.eqb k (py_str (cell_at ri b))) eqn:E; [|exact IH].
    apply String.eqb_eq in E. congruence.
Qed.

Lemma join_rows_length (li ri : nat) (lrows rrows : list row) :
  Forall (fun a => li < List.length a) lrows ->
  Forall (fun b => ri < List.length b) rrows ->
  List.length (join_rows li ri (map (update_at li to_text) lrows)
                               (map (update_at ri to_text) rrows))
  = list_sum
      (map (fun k => count_occ string_dec
                       (map (fun b => py_str (cell_at ri b)) rrows) k)
           (map (fun a => py_str (cell_at li a)) lrows)).
Proof.
  intros HL HR. unfold join_rows.
  induction HL as [|a t Ha Ht IH]; [reflexivity|].
  cbn [map flat_map list_sum fold_right].
  rewrite length_app, length_map, (cell_at_to_text li a Ha).
  rewrite matching_rows_count by assumption.
  f_equal. exact IH.
Qed.

Lemma list_sum_map_add {A : Type} (g h : A -> nat) (m : list A) :
  list_sum (map (fun k => g k + h k) m)
  = list_sum (map g m) + list_sum (map h m).
Proof. induction m as [|x t IH]; simpl; [reflexivity | rewrite IH; lia]. Qed.

Lemma list_sum_at (f : string -> nat) (x : string) (m : list string) :
  NoDup m -> In x m ->
  list_sum (map (fun k => if string_dec x k then f k else 0) m) = f x.
Proof.
  induction 1 as [|y t Hy Ht IH]; simpl; [contradiction|].
  intros [->|Hin].
  - destruct (string_dec x x); [|congruence].
    assert (Hz : list_sum (map (fun k => if string_dec x k then f k else 0) t)
                 = 0).
    { clear IH Ht. induction t as [|z t IHt]; simpl; [reflexivity|].
      destruct (string_dec x z) as [->|_]; [exfalso; apply Hy; now left|].
      apply IHt. intros H. apply Hy. now right. }
    lia.
  - destruct (string_dec x y) as [->|_]; [contradiction|].
    now rewrite IH.
Qed.

(** A sum over a list, regrouped by the distinct values of the list. *)
Lemma sum_by_distinct (f : string -> nat) (l m : list string) :
  NoDup m -> incl l m ->
  list_sum (map f l)
  = list_sum (map (fun k => count_occ string_dec l k * f k) m).
Proof.
  intros Hm. induction l as [|x t IH]; intros Hincl.
  - clear Hm Hincl. induction m as [|y m IHm]; simpl in *; auto.
  - simpl. rewrite IH by (intros y Hy; apply Hincl; now right).
    rewrite <- (list_sum_at f x m Hm) by (apply Hincl; now left).
    rewrite <- list_sum_map_add. f_equal. apply map_ext. intros k.
    destruct (string_dec x k); lia.
Qed.

Lemma sum_filter_zero (g : string -> nat) (p : string -> bool) (m : list string) :
  (forall k, p k = false -> g k = 0) ->
  list_sum (map g (filter p m)) = list_sum (map g m).
Proof.
  intros H. induction m as [|x t IH]; simpl; [reflexivity|].
  destruct (p x) eqn:E; simpl; rewrite IH; [reflexivity|].
  now rewrite (H x E).
Qed.

Lemma expected_join_size_sum (a b : DataFrame) :
  expected_join_size a b
  = list_sum (map (fun k => count_occ string_dec (key_texts b) k)
                  (key_texts a)).
Proof.
  unfold expected_join_size, shared_keys, count_key.
  rewrite sum_filter_zero.
  - symmetry. apply sum_by_distinct; [apply NoDup_nodup|].
    intros k Hk. now apply nodup_In.
  - intros k Hk. apply existsb_eqb_not_In in Hk.
    apply (count_occ_not_In string_dec) in Hk. rewrite Hk. lia.
Qed.

Lemma filter_none {A : Type} (p : A -> bool) (l : list A) :
  (forall x, In x l -> p x = false) -> filter p l = [].
Proof.
  induction l as [|x t IH]; intros H; simpl; [reflexivity|].
  rewrite (H x) by now left. apply IH. intros y Hy. apply H. now right.
Qed.

Ltac distinct_labels :=
  repeat (constructor; [simpl; intuition discriminate|]); constructor.

Ltac valid_sample :=
  split; [distinct_labels | split; [repeat constructor | reflexivity]].

(** C1, as the code has it: for two validated tables on which merge does
    not raise MergeError (a suffixed label that repeats a label of the same
    side), the join returns a table whose number of rows is the sum, over
    the key texts that both tables have, of the number of rows with that
    key in the first times the number in the second; when no key text is
    shared the joined table has no rows. *)
Theorem C1_join_row_count (df1 df2 : DataFrame) :
  valid_table [KEY; STATUS] df1 ->
  valid_table [KEY] df2 ->
  (forall dups, merged_of df1 df2 <> inl (MergeError dups)) ->
  exists merged,
    merged_of df1 df2 = inr merged
    /\ len merged = expected_join_size df1 df2
    /\ ((forall k, In k (key_texts df1) -> ~ In k (key_texts df2)) ->
        rows merged = []).
Proof.
  intros V1 V2 Hno.
  destruct (valid_table_key [KEY; STATUS] df1) as [li [H1 HL]];
    [now left | assumption |].
  destruct (valid_table_key [KEY] df2) as [ri [H2 HR]];
    [now left | assumption |].
  destruct (merged_of_cases df1 df2 li ri H1 H2) as [E|[d E]];
    [|now apply Hno in E].
  eexists. split; [exact E|].
  assert (Hlen : forall m, rows m
                   = join_rows li ri (map (update_at li to_text) (rows df1))
                                     (map (update_at ri to_text) (rows df2)) ->
                 len m = expected_join_size df1 df2).
  { intros m Hm. unfold len. rewrite Hm, join_rows_length by assumption.
    rewrite expected_join_size_sum. unfold key_texts. now rewrite H1, H2. }
  split; [now apply Hlen|].
  intros Hdisj. apply length_zero_iff_nil.
  match goal with |- List.length (rows ?m) = 0 =>
    change (len m = 0); rewrite (Hlen m eq_refl) end.
  unfold expected_join_size, shared_keys. rewrite filter_none; [reflexivity|].
  intros k Hk. apply nodup_In in Hk. apply existsb_eqb_not_In.
  now apply Hdisj.
Qed.

Lemma C1_scenario_join_size :
  exists merged,
    merged_of Sample.aloha Sample.unbilled = inr merged
    /\ len merged = expected_join_size Sample.aloha Sample.unbilled
    /\ ((forall k, In k (key_texts Sample.aloha) ->
                   ~ In k (key_texts Sample.unbilled)) ->
        rows merged = []).
Proof.
  apply (C1_join_row_count Sample.aloha Sample.unbilled).
  - valid_sample.
  - valid_sample.
  - intros dups H. vm_compute in H. discriminate H.
Defined.

(** Two validated tables without a shared key on which the join raises
    MergeError instead of returning an empty table. *)
Lemma C1_disjoint_keys_merge_error :
  valid_table [KEY; STATUS] Sample.aloha_with_suffixed_label
  /\ valid_table [KEY] Sample.unbilled_with_x
  /\ shared_keys Sample.aloha_with_suffixed_label Sample.unbilled_with_x = []
  /\ merged_of Sample.aloha_with_suffixed_label Sample.unbilled_with_x
     = inl (MergeError ["X_aloha"]).
Proof.
  split; [valid_sample|]. split; [valid_sample|]. split; reflexivity.
Qed.

(** ** Which rows are joined *)

Lemma In_join_rows (li ri : nat) (lrows rrows : list row) (r : row) :
  In r (join_rows li ri lrows rrows) <->
  exists a b, In a lrows /\ In b rrows
    /\ cell_eqb (cell_at li a) (cell_at ri b) = true
    /\ r = a ++ drop_at ri b.
Proof.
  unfold join_rows. rewrite in_flat_map. split.
  - intros [a [Ha Hr]]. apply in_map_iff in Hr.
    destruct Hr as [b [<- Hb]]. apply filter_In in Hb.
    exists a, b. tauto.
  - intros [a [b [Ha [Hb [Hk ->]]]]]. exists a. split; [assumption|].
    apply in_map_iff. exists b. split; [reflexivity|].
    apply filter_In. now split.
Qed.

(** The rows of the joined table are the joined rows of the pairs whose
    key texts are equal. *)
Lemma In_rows_merged (df1 df2 merged : DataFrame) (r : row) :
  valid_table [KEY; STATUS] df1 ->
  valid_table [KEY] df2 ->
  merged_of df1 df2 = inr merged ->
  (In r (rows merged) <->
   exists a b ka kb,
     In a (rows df1) /\ In b (rows df2)
     /\ lookup df1 KEY a = Some ka /\ lookup df2 KEY b = Some kb
     /\ py_str ka = py_str kb
     /\ r = joined_row df1 df2 a b).
Proof.
  intros V1 V2 E.
  destruct (valid_table_key [KEY; STATUS] df1) as [li [H1 HL]];
    [now left | assumption |].
  destruct (valid_table_key [KEY] df2) as [ri [H2 HR]];
    [now left | assumption |].
  apply merged_of_inr in E.
  destruct E as [li' [ri' [H1' [H2' [_ Hrows]]]]].
  rewrite H1 in H1'. rewrite H2 in H2'.
  injection H1' as <-. injection H2' as <-.
  rewrite Hrows, In_join_rows. unfold lookup, joined_row.
  rewrite H1, H2. cbn [option_map].
  rewrite Forall_forall in HL, HR. split.
  - intros [a' [b' [Ha [Hb [Hk ->]]]]].
    apply in_map_iff in Ha. destruct Ha as [a [<- Ha]].
    apply in_map_iff in Hb. destruct Hb as [b [<- Hb]].
    rewrite (cell_at_to_text li a (HL a Ha)) in Hk.
    rewrite (cell_at_to_text ri b (HR b Hb)) in Hk.
    apply String.eqb_eq in Hk.
    exists a, b, (cell_at li a), (cell_at ri b). auto 10.
  - intros [a [b [ka [kb [Ha [Hb [[= <-] [[= <-] [Hk ->]]]]]]]]].
    exists (update_at li to_text a), (update_at ri to_text b).
    split; [now apply in_map|]. split; [now apply in_map|].
    split; [|reflexivity].
    rewrite (cell_at_to_text li a (HL a Ha)).
    rewrite (cell_at_to_text ri b (HR b Hb)).
    now apply String.eqb_eq.
Qed.

(** ** Labels of the joined table *)

Lemma append_suffix_neq (c suffix label : string) :
  Text.endswith label suffix = false -> c +++ suffix <> label.
Proof.
  intros H E. assert (Ht : Text.endswith label suffix = true).
  { apply endswith_spec. now exists c. }
  congruence.
Qed.

Lemma index_of_app_l (c : string) (l r : list string) (i : nat) :
  index_of c l = Some i -> index_of c (l ++ r) = Some i.
Proof.
  revert i. induction l as [|x t IH]; intros i; simpl; [discriminate|].
  destruct (String.eqb c x); [auto|].
  destruct (index_of c t) as [j|]; simpl; [|discriminate].
  intros [= <-]. now rewrite (IH j eq_refl).
Qed.

(** Renaming moves no label onto [label] and leaves [label] alone, when
    [label] is not renamed and does not end in the suffix. *)
Lemma index_of_map_renamer (label suffix : string) (ov cols : list string) :
  ~ In label ov -> Text.endswith label suffix = false ->
  index_of label (map (renamer ov suffix) cols) = index_of label cols.
Proof.
  intros Hov Hsuf. induction cols as [|c t IH]; simpl; [reflexivity|].
  rewrite IH. unfold renamer at 1.
  destruct (String.eqb label c) eqn:E.
  - apply String.eqb_eq in E. subst c.
    apply existsb_eqb_not_In in Hov. rewrite Hov.
    now rewrite String.eqb_refl.
  - destruct (existsb (String.eqb c) ov); [|now rewrite E].
    destruct (String.eqb label (c +++ suffix)) eqn:E'; [|reflexivity].
    apply String.eqb_eq in E'. symmetry in E'.
    now apply append_suffix_neq in E'.
Qed.

Lemma overlap_In (lcols rcols : list string) (c : string) :
  In c (overlap lcols rcols) <-> In c lcols /\ In c rcols.
Proof. unfold overlap. now rewrite filter_In, existsb_eqb_In. Qed.

Lemma index_of_key_merged (df1 df2 merged : DataFrame) (li : nat) :
  NoDup (columns df2) ->
  index_of KEY (columns df1) = Some li ->
  merged_of df1 df2 = inr merged ->
  index_of KEY (columns merged) = Some li.
Proof.
  intros Hnd H1 E. apply merged_of_inr in E.
  destruct E as [li' [ri [H1' [H2 [Hcols _]]]]].
  rewrite Hcols. apply index_of_app_l.
  rewrite index_of_map_renamer; [assumption| |reflexivity].
  intros Hin. apply overlap_In in Hin. destruct Hin as [_ Hin].
  now apply (drop_at_index_of_not_In KEY (columns df2) ri).
Qed.

(** C3, as the code has it: in the table joined from two validated tables
    every key cell is a text, and two rows are joined whenever the [str]
    texts of their key cells are equal, whatever the cells were before; so
    a row whose key is the integer z in one table is joined with a row
    whose key is the text of z in the other, as 123 with "123".  (A key
    held as a float has another text, "123.0", and is not covered.) *)
Theorem C3_keys_joined_by_text (df1 df2 merged : DataFrame) :
  valid_table [KEY; STATUS] df1 ->
  valid_table [KEY] df2 ->
  merged_of df1 df2 = inr merged ->
  (forall r, In r (rows merged) ->
     exists s, lookup merged KEY r = Some (CStr s))
  /\ (forall a b ka kb,
        In a (rows df1) -> In b (rows df2) ->
        lookup df1 KEY a = Some ka -> lookup df2 KEY b = Some kb ->
        py_str ka = py_str kb ->
        In (joined_row df1 df2 a b) (rows merged))
  /\ (forall a b z,
        In a (rows df1) -> In b (rows df2) ->
        (lookup df1 KEY a = Some (CInt z)
         /\ lookup df2 KEY b = Some (CStr (Text.str_of_int z)))
        \/ (lookup df1 KEY a = Some (CStr (Text.str_of_int z))
            /\ lookup df2 KEY b = Some (CInt z)) ->
        In (joined_row df1 df2 a b) (rows merged))
  /\ Text.str_of_int 123 = "123".
Proof.
  intros V1 V2 E.
  assert (Hjoin : forall a b ka kb,
            In a (rows df1) -> In b (rows df2) ->
            lookup df1 KEY a = Some ka -> lookup df2 KEY b = Some kb ->
            py_str ka = py_str kb ->
            In (joined_row df1 df2 a b) (rows merged)).
  { intros a b ka kb Ha Hb Hka Hkb Hk.
    apply (In_rows_merged df1 df2 merged _ V1 V2 E).
    exists a, b, ka, kb. auto 10. }
  split; [|split; [exact Hjoin|split; [|reflexivity]]].
  - intros r Hr.
    apply (In_rows_merged df1 df2 merged r V1 V2 E) in Hr.
    destruct Hr as [a [b [ka [kb [Ha [_ [Hka [_ [_ ->]]]]]]]]].
    destruct (valid_table_key [KEY; STATUS] df1) as [li [H1 HL]];
      [now left | assumption |].
    destruct (valid_table_key [KEY] df2) as [ri [H2 _]];
      [now left | assumption |].
    unfold lookup. destruct V2 as [Hnd2 _].
    rewrite (index_of_key_merged df1 df2 merged li Hnd2 H1 E).
    unfold joined_row. rewrite H1, H2. cbn [option_map].
    rewrite Forall_forall in HL. specialize (HL a Ha).
    unfold cell_at. rewrite app_nth1 by now rewrite update_at_length.
    rewrite nth_update_at_same by assumption. now eexists.
  - intros a b z Ha Hb [[Hka Hkb]|[Hka Hkb]];
      now apply (Hjoin a b _ _ Ha Hb Hka Hkb).
Qed.

Lemma C3_number_123_joins_text_123 :
  In [CStr "123"; CStr "Yes"; CInt 50] (rows Sample.joined_123).
Proof.
  assert (V1 : valid_table [KEY; STATUS] Sample.aloha_number_key)
    by valid_sample.
  assert (V2 : valid_table [KEY] Sample.unbilled_text_key) by valid_sample.
  apply (proj1 (proj2 (proj2
           (C3_keys_joined_by_text Sample.aloha_number_key
              Sample.unbilled_text_key Sample.joined_123 V1 V2 eq_refl)))
           [CInt 123; CStr "Yes"] [CStr "123"; CInt 50] 123%Z).
  - now left.
  - now left.
  - left. split; reflexivity.
Defined.

Lemma renamer_in (ov : list string) (suffix c : string) :
  In c ov -> renamer ov suffix c = c +++ suffix.
Proof.
  intros H. unfold renamer. apply existsb_eqb_In in H. now rewrite H.
Qed.

Lemma renamer_out (ov : list string) (suffix c : string) :
  ~ In c ov -> renamer ov suffix c = c.
Proof.
  intros H. unfold renamer. apply existsb_eqb_not_In in H. now rewrite H.
Qed.

(** Where the labels of the two sides sit in a joined table whose labels
    are distinct. *)
Lemma index_of_left_label (f g : string -> string) (lcols rcols : list string)
    (c : string) (i : nat) :
  NoDup (map f lcols ++ map g rcols) ->
  index_of c lcols = Some i ->
  index_of (f c) (map f lcols ++ map g rcols) = Some i.
Proof.
  intros Hnd Hi. apply index_of_first; [assumption|].
  pose proof (index_of_lt c lcols i Hi) as Hlt.
  apply index_of_nth_error in Hi.
  rewrite nth_error_app1 by now rewrite length_map.
  now rewrite nth_error_map, Hi.
Qed.

Lemma index_of_right_label (f g : string -> string) (lcols rcols : list string)
    (c : string) (j : nat) :
  NoDup (map f lcols ++ map g rcols) ->
  nth_error rcols j = Some c ->
  index_of (g c) (map f lcols ++ map g rcols) = Some (List.length lcols + j).
Proof.
  intros Hnd Hj. apply index_of_first; [assumption|].
  rewrite nth_error_app2 by (rewrite length_map; lia).
  rewrite length_map.
  replace (List.length lcols + j - List.length lcols) with j by lia.
  now rewrite nth_error_map, Hj.
Qed.

(** The cells of a joined row: the left row's cells in place (the key as
    text), then the right row's cells without its key. *)
Lemma cell_at_joined_left (li ri i : nat) (a b : row) :
  i < List.length a -> i <> li ->
  cell_at i (update_at li to_text a ++ drop_at ri (update_at ri to_text b))
  = cell_at i a.
Proof.
  intros Hlt Hne. unfold cell_at.
  rewrite app_nth1 by now rewrite update_at_length.
  apply nth_update_at_other. congruence.
Qed.

Lemma cell_at_joined_right (li ri j : nat) (a b : row) :
  j <> ri ->
  cell_at (List.length a + shifted ri j)
    (update_at li to_text a ++ drop_at ri (update_at ri to_text b))
  = cell_at j b.
Proof.
  intros Hne. unfold cell_at.
  rewrite app_nth2 by (rewrite update_at_length; lia).
  rewrite update_at_length.
  replace (List.length a + shifted ri j - List.length a)
    with (shifted ri j) by lia.
  rewrite nth_drop_at by congruence.
  apply nth_update_at_other. congruence.
Qed.

Lemma index_of_inj (c c' : string) (l : list string) (i : nat) :
  index_of c l = Some i -> index_of c' l = Some i -> c = c'.
Proof.
  intros H H'. apply index_of_nth_error in H, H'. congruence.
Qed.

(** C7, as the code has it: when the join of two validated tables returns
    a table, a label other than the key that both tables have appears in it
    as the label with "_aloha" for the first table's column and with
    "_unbilled" for the second's, every other label appears unchanged, and
    no column is lost (the second table's key column apart).  When the
    labels of the joined table are distinct, each of these labels gives, in
    every joined row, the cell of the column it came from. *)
Theorem C7_shared_labels_get_suffixes (df1 df2 merged : DataFrame) :
  valid_table [KEY; STATUS] df1 ->
  valid_table [KEY] df2 ->
  merged_of df1 df2 = inr merged ->
  (forall c, c <> KEY -> In c (columns df1) -> In c (columns df2) ->
     In (c +++ "_aloha") (columns merged)
     /\ In (c +++ "_unbilled") (columns merged))
  /\ (forall c, In c (columns df1) -> c = KEY \/ ~ In c (columns df2) ->
        In c (columns merged))
  /\ (forall c, In c (columns df2) -> ~ In c (columns df1) ->
        In c (columns merged))
  /\ List.length (columns merged)
     = List.length (columns df1) + List.length (columns df2) - 1
  /\ (NoDup (columns merged) ->
      forall a b, In a (rows df1) -> In b (rows df2) ->
        (forall c, c <> KEY -> In c (columns df1) -> In c (columns df2) ->
           lookup merged (c +++ "_aloha") (joined_row df1 df2 a b)
           = lookup df1 c a
           /\ lookup merged (c +++ "_unbilled") (joined_row df1 df2 a b)
              = lookup df2 c b)
        /\ (forall c, c <> KEY -> In c (columns df1) ->
              ~ In c (columns df2) ->
              lookup merged c (joined_row df1 df2 a b) = lookup df1 c a)
        /\ (forall c, In c (columns df2) -> ~ In c (columns df1) ->
              lookup merged c (joined_row df1 df2 a b) = lookup df2 c b)).
Proof.
  intros V1 V2 E.
  destruct (valid_table_key [KEY; STATUS] df1) as [li [H1 HL]];
    [now left | assumption |].
  destruct (valid_table_key [KEY] df2) as [ri [H2 HR]];
    [now left | assumption |].
  destruct V1 as [Hnd1 [Hwf1 _]]. destruct V2 as [Hnd2 [Hwf2 _]].
  apply merged_of_inr in E.
  destruct E as [li' [ri' [H1' [H2' [Hcols _]]]]].
  rewrite H1 in H1'. rewrite H2 in H2'.
  injection H1' as <-. injection H2' as <-.
  set (rcols := drop_at ri (columns df2)) in *.
  set (ov := overlap (columns df1) rcols) in *.
  assert (Hkey1 : In KEY (columns df1)) by (apply index_of_In; eauto).
  assert (Hkey_r : ~ In KEY rcols)
    by now apply (drop_at_index_of_not_In KEY (columns df2) ri).
  assert (Hr_in : forall c, c <> KEY -> In c (columns df2) -> In c rcols)
    by (intros c Hne Hc; now apply (In_drop_at_other KEY (columns df2) ri)).
  assert (Hr_sub : forall c, In c rcols -> In c (columns df2) /\ c <> KEY).
  { intros c Hc. split; [now apply In_drop_at in Hc | congruence]. }
  assert (Hov_in : forall c, c <> KEY -> In c (columns df1) ->
                     In c (columns df2) -> In c ov).
  { intros c Hne Hc1 Hc2. apply overlap_In. auto. }
  assert (Hov_out1 : forall c, c = KEY \/ ~ In c (columns df2) -> ~ In c ov).
  { intros c Hc Hin. apply overlap_In in Hin. destruct Hin as [_ Hin].
    apply Hr_sub in Hin. destruct Hc; tauto. }
  assert (Hov_out2 : forall c, ~ In c (columns df1) -> ~ In c ov).
  { intros c Hc Hin. apply overlap_In in Hin. tauto. }
  split; [|split; [|split; [|split]]].
  - intros c Hne Hc1 Hc2. rewrite Hcols. split; apply in_or_app.
    + left. rewrite <- (renamer_in ov "_aloha" c) by auto. now apply in_map.
    + right. rewrite <- (renamer_in ov "_unbilled" c) by auto.
      apply in_map. auto.
  - intros c Hc1 Hc. rewrite Hcols. apply in_or_app. left.
    rewrite <- (renamer_out ov "_aloha" c) by auto. now apply in_map.
  - intros c Hc2 Hc1. rewrite Hcols. apply in_or_app. right.
    rewrite <- (renamer_out ov "_unbilled" c) by auto.
    apply in_map. apply Hr_in; [congruence | assumption].
  - rewrite Hcols, length_app, !length_map. unfold rcols.
    pose proof (index_of_lt KEY (columns df2) ri H2).
    rewrite drop_at_length by assumption. lia.
  - intros Hnd a b Ha Hb. rewrite Hcols in Hnd.
    unfold joined_row. rewrite H1, H2.
    unfold well_formed in Hwf1, Hwf2. rewrite Forall_forall in Hwf1, Hwf2.
    pose proof (Hwf1 a Ha) as Hla. pose proof (Hwf2 b Hb) as Hlb.
    assert (Hleft : forall c i, index_of c (columns df1) = Some i ->
              c <> KEY ->
              lookup merged (renamer ov "_aloha" c)
                (update_at li to_text a
                 ++ drop_at ri (update_at ri to_text b))
              = lookup df1 c a).
    { intros c i Hi Hne. unfold lookup. rewrite Hcols, Hi.
      rewrite (index_of_left_label _ _ _ _ c i Hnd Hi). cbn [option_map].
      f_equal. apply cell_at_joined_left.
      - rewrite Hla. now apply (index_of_lt c).
      - intros ->. apply Hne. now apply (index_of_inj c KEY (columns df1) li). }
    assert (Hright : forall c j, index_of c (columns df2) = Some j ->
              c <> KEY ->
              lookup merged (renamer ov "_unbilled" c)
                (update_at li to_text a
                 ++ drop_at ri (update_at ri to_text b))
              = lookup df2 c b).
    { intros c j Hj Hne. unfold lookup. rewrite Hcols, Hj.
      assert (Hjri : j <> ri).
      { intros ->. apply Hne.
        now apply (index_of_inj c KEY (columns df2) ri). }
      assert (Hn : nth_error rcols (shifted ri j) = Some c).
      { apply nth_error_drop_at; [congruence|].
        now apply index_of_nth_error. }
      rewrite (index_of_right_label _ _ _ _ c _ Hnd Hn). cbn [option_map].
      f_equal. rewrite <- Hla. now apply cell_at_joined_right. }
    split; [|split].
    + intros c Hne Hc1 Hc2.
      destruct (proj1 (index_of_In c _) Hc1) as [i Hi].
      destruct (proj1 (index_of_In c _) Hc2) as [j Hj].
      rewrite <- (renamer_in ov "_aloha" c) by auto.
      rewrite <- (renamer_in ov "_unbilled" c) by auto.
      split; [now apply (Hleft c i) | now apply (Hright c j)].
    + intros c Hne Hc1 Hc2.
      destruct (proj1 (index_of_In c _) Hc1) as [i Hi].
      rewrite <- (renamer_out ov "_aloha" c) at 1 by auto.
      now apply (Hleft c i).
    + intros c Hc2 Hc1.
      destruct (proj1 (index_of_In c _) Hc2) as [j Hj].
      rewrite <- (renamer_out ov "_unbilled" c) at 1 by auto.
      apply (Hright c j); [assumption | congruence].
Qed.

Lemma C7_notes_columns_both_kept :
  In "Notes_aloha" (columns Sample.joined_notes)
  /\ In "Notes_unbilled" (columns Sample.joined_notes).
Proof.
  assert (V1 : valid_table [KEY; STATUS] Sample.aloha_notes) by valid_sample.
  assert (V2 : valid_table [KEY] Sample.unbilled_notes) by valid_sample.
  apply (proj1 (C7_shared_labels_get_suffixes Sample.aloha_notes
                  Sample.unbilled_notes Sample.joined_notes V1 V2 eq_refl)
           "Notes").
  - discriminate.
  - simpl. tauto.
  - simpl. tauto.
Defined.

(** Two validated tables that share the label ["X"]: the join returns a
    table, but the label "X_unbilled" is there twice and read by label it
    gives the first table's old "X_unbilled" cell (11), not the second
    table's "X" cell (20). *)
Lemma C7_suffixed_label_not_addressable :
  valid_table [KEY; STATUS] Sample.aloha_x_and_x_unbilled
  /\ valid_table [KEY] Sample.unbilled_x
  /\ merged_of Sample.aloha_x_and_x_unbilled Sample.unbilled_x
     = inr Sample.joined_x_twice
  /\ In "X" (columns Sample.aloha_x_and_x_unbilled)
  /\ In "X" (columns Sample.unbilled_x)
  /\ count_occ string_dec (columns Sample.joined_x_twice) "X_unbilled" = 2
  /\ lookup Sample.joined_x_twice "X_unbilled"
       (joined_row Sample.aloha_x_and_x_unbilled Sample.unbilled_x
          [CInt 1; CStr "Yes"; CInt 10; CInt 11] [CInt 1; CInt 20])
     = Some (CInt 11)
  /\ lookup Sample.unbilled_x "X" [CInt 1; CInt 20] = Some (CInt 20).
Proof.
  split; [valid_sample|]. split; [valid_sample|].
  split; [reflexivity|]. split; [simpl; tauto|]. split; [simpl; tauto|].
  split; [reflexivity|]. split; reflexivity.
Qed.

(** ** A status column on both sides *)

Lemma valid_table_In (required_cols : list string) (df : DataFrame)
    (c : string) :
  In c required_cols -> valid_table required_cols df -> In c (columns df).
Proof.
  intros Hreq [_ [_ Hmiss]].
  destruct (has_column c df) eqn:E; [now apply has_column_In|].
  assert (Hm : In c (missing_columns df required_cols)).
  { apply filter_In. split; [assumption|]. now rewrite E. }
  rewrite Hmiss in Hm. contradiction.
Qed.

(** X1: when the second table has a ["Completed"] column too, both copies are
    renamed: the joined table has the labels "Completed_aloha" and
    "Completed_unbilled" and no label ["Completed"], and the script shows
    the error of line 103 and nothing else. *)
Theorem status_label_on_both_sides
    (to_excel : string -> DataFrame -> exception + list Byte.byte)
    (df1 df2 merged : DataFrame) :
  valid_table [KEY; STATUS] df1 ->
  valid_table [KEY] df2 ->
  In STATUS (columns df2) ->
  merged_of df1 df2 = inr merged ->
  In "Completed_aloha" (columns merged)
  /\ In "Completed_unbilled" (columns merged)
  /\ has_column STATUS merged = false
  /\ List.length (columns merged)
     = List.length (columns df1) + List.length (columns df2) - 1
  /\ report to_excel merged = ([st_error MSG_NO_STATUS], None).
Proof.
  intros V1 V2 Hs2 E.
  assert (Hs1 : In STATUS (columns df1)).
  { apply (valid_table_In [KEY; STATUS]); [simpl; tauto | assumption]. }
  destruct V2 as [Hnd2 _].
  apply merged_of_inr in E.
  destruct E as [li [ri [H1 [H2 [Hcols _]]]]].
  assert (Hr : In STATUS (drop_at ri (columns df2))).
  { apply (In_drop_at_other KEY); [assumption | assumption | discriminate]. }
  assert (Hov : In STATUS (overlap (columns df1) (drop_at ri (columns df2)))).
  { apply overlap_In. now split. }
  assert (Hno : forall suffix cols,
            Text.endswith STATUS suffix = false ->
            ~ In STATUS
                (map (renamer (overlap (columns df1)
                                 (drop_at ri (columns df2))) suffix) cols)).
  { intros suffix cols Hsuf Hin. apply in_map_iff in Hin.
    destruct Hin as [c [Hc _]]. unfold renamer in Hc.
    destruct (existsb (String.eqb c) _) eqn:Ec.
    - now apply append_suffix_neq in Hc.
    - subst c. apply existsb_eqb_not_In in Ec. contradiction. }
  assert (Hhas : has_column STATUS merged = false).
  { apply existsb_eqb_not_In. rewrite Hcols. intros Hin.
    apply in_app_or in Hin.
    destruct Hin as [Hin|Hin]; apply Hno in Hin; auto. }
  split; [|split; [|split; [assumption|split]]].
  - rewrite Hcols. apply in_or_app. left.
    change "Completed_aloha" with (STATUS +++ "_aloha").
    rewrite <- (renamer_in _ "_aloha" STATUS Hov). now apply in_map.
  - rewrite Hcols. apply in_or_app. right.
    change "Completed_unbilled" with (STATUS +++ "_unbilled").
    rewrite <- (renamer_in _ "_unbilled" STATUS Hov). now apply in_map.
  - rewrite Hcols, length_app, !length_map.
    pose proof (index_of_lt KEY (columns df2) ri H2).
    rewrite drop_at_length by assumption. lia.
  - unfold report. now rewrite Hhas.
Qed.

Lemma status_label_on_both_sides_sample :
  In "Completed_aloha" (columns Sample.joined_status_twice)
  /\ In "Completed_unbilled" (columns Sample.joined_status_twice)
  /\ has_column STATUS Sample.joined_status_twice = false
  /\ List.length (columns Sample.joined_status_twice)
     = List.length (columns Sample.aloha)
       + List.length (columns Sample.unbilled_with_status) - 1
  /\ report Sample.no_bytes Sample.joined_status_twice
     = ([st_error MSG_NO_STATUS], None).
Proof.
  assert (V1 : valid_table [KEY; STATUS] Sample.aloha) by valid_sample.
  assert (V2 : valid_table [KEY] Sample.unbilled_with_status)
    by valid_sample.
  apply (status_label_on_both_sides Sample.no_bytes Sample.aloha
           Sample.unbilled_with_status Sample.joined_status_twice V1 V2).
  - simpl. tauto.
  - reflexivity.
Defined.

(** ** The worked scenarios *)

(** Two uploads whose tables are the scenario's: one joined row, which the
    filter keeps; the page shows both counts as 1, the row, and the
    download. *)
Theorem scenario_one_match :
  merged_of Sample.aloha Sample.unbilled = inr Sample.joined
  /\ select_completed_yes Sample.joined = inr Sample.joined
  /\ script (Sample.csv_gives Sample.aloha) (Sample.csv_gives Sample.unbilled)
       Sample.no_bytes (Some Sample.aloha_csv) (Some Sample.unbilled_xlsx)
     = ([st_subheader "Matched Sessions (Inner Join, Completed = Yes)";
         st_write "Total inner-joined rows: **1**";
         st_write "Rows with `Completed = 'Yes'`: **1**";
         st_dataframe Sample.joined;
         st_download_button "Download Matched Sessions (Completed = Yes)"
           [] FILE_NAME MIME],
        None).
Proof. repeat split. Qed.

(** A first table without ["Completed"]: the validator names exactly that
    label, the script shows the message and stops before the join. *)
Theorem scenario_missing_status
    (to_excel : string -> DataFrame -> exception + list Byte.byte) :
  missing_columns Sample.aloha_without_status [KEY; STATUS] = ["Completed"]
  /\ main_logic to_excel Sample.aloha_without_status Sample.unbilled
     = ([st_error
           "File 1 (Aloha) is missing required column(s): Completed"],
        None).
Proof. split; reflexivity. Qed.

(** * Further properties of the script *)

(** ** The status test, whatever the text *)

Lemma lstrip_all_space (s : string) :
  Text.all_space s = true -> Text.lstrip s = "".
Proof.
  induction s as [|c t IH]; simpl; [reflexivity|].
  intros H. apply andb_true_iff in H. destruct H as [Hc Ht].
  rewrite Hc. now apply IH.
Qed.

Lemma rstrip_all_space (s : string) :
  Text.all_space s = true -> Text.rstrip s = "".
Proof.
  induction s as [|c t IH]; simpl; [reflexivity|].
  intros H. apply andb_true_iff in H. destruct H as [Hc Ht].
  now rewrite (IH Ht), Hc.
Qed.

Lemma lstrip_app (s r : string) :
  Text.lstrip (s +++ r)
  = if Text.all_space s then Text.lstrip r else Text.lstrip s +++ r.
Proof.
  induction s as [|c t IH]; simpl; [reflexivity|].
  destruct (Text.isspace c); simpl; [exact IH | reflexivity].
Qed.

Lemma rstrip_app_space (s r : string) :
  Text.all_space r = true -> Text.rstrip (s +++ r) = Text.rstrip s.
Proof.
  intros Hr. induction s as [|c t IH]; simpl.
  - now apply rstrip_all_space.
  - now rewrite IH.
Qed.

Lemma strip_padded (l s r : string) :
  Text.all_space l = true -> Text.all_space r = true ->
  Text.strip (l +++ s +++ r) = Text.strip s.
Proof.
  intros Hl Hr. unfold Text.strip.
  rewrite (lstrip_app l), Hl, (lstrip_app s).
  destruct (Text.all_space s) eqn:Hs.
  - now rewrite (lstrip_all_space r Hr), (lstrip_all_space s Hs).
  - now apply rstrip_app_space.
Qed.

Lemma isspace_lower_char (c : ascii) :
  Text.isspace (Text.lower_char c) = Text.isspace c.
Proof.
  destruct c as [[] [] [] [] [] [] [] []]; vm_compute; reflexivity.
Qed.

Lemma lstrip_lower (s : string) :
  Text.lstrip (Text.lower s) = Text.lower (Text.lstrip s).
Proof.
  induction s as [|c t IH]; simpl; [reflexivity|].
  rewrite isspace_lower_char. now destruct (Text.isspace c).
Qed.

Lemma rstrip_lower (s : string) :
  Text.rstrip (Text.lower s) = Text.lower (Text.rstrip s).
Proof.
  induction s as [|c t IH]; simpl; [reflexivity|].
  rewrite IH, isspace_lower_char.
  destruct (Text.rstrip t); simpl; [now destruct (Text.isspace c)|reflexivity].
Qed.

Lemma strip_lower (s : string) :
  Text.strip (Text.lower s) = Text.lower (Text.strip s).
Proof. unfold Text.strip. now rewrite lstrip_lower, rstrip_lower. Qed.

(** X2: the status test passes a value exactly when its text is some
    whitespace, then a word that lower-cases to "yes", then some
    whitespace.  So padding a text with whitespace on either side never
    changes the verdict, and two texts that differ only in letter case get
    the same verdict. *)
Theorem status_test_ignores_padding_and_case :
  (forall v, completed_yes v = true <->
     exists l y r, py_str v = l +++ y +++ r
                   /\ Text.all_space l = true /\ Text.all_space r = true
                   /\ Text.lower y = "yes")
  /\ (forall l s r, Text.all_space l = true -> Text.all_space r = true ->
        completed_yes (CStr (l +++ s +++ r)) = completed_yes (CStr s))
  /\ (forall s s', Text.lower s = Text.lower s' ->
        completed_yes (CStr s) = completed_yes (CStr s')).
Proof.
  assert (Hpad : forall l s r, Text.all_space l = true ->
            Text.all_space r = true ->
            completed_yes (CStr (l +++ s +++ r)) = completed_yes (CStr s)).
  { intros l s r Hl Hr. unfold completed_yes. simpl.
    now rewrite strip_padded. }
  split; [|split; [exact Hpad|]].
  - intros v. unfold completed_yes. rewrite String.eqb_eq. split.
    + intros H. destruct (strip_spec (py_str v)) as [l [r [Hs [Hl [Hr _]]]]].
      exists l, (Text.strip (py_str v)), r. auto.
    + intros [l [y [r [Hs [Hl [Hr Hy]]]]]]. rewrite Hs.
      rewrite strip_padded by assumption.
      now rewrite <- strip_lower, Hy.
  - intros s s' H. unfold completed_yes. simpl.
    now rewrite <- !strip_lower, H.
Qed.

(** ** What read_table returns *)

Lemma loaded_shape (parsed : string + DataFrame) :
  match loaded parsed with
  | (Some df, None) => parsed = inr df /\ empty df = false
  | (None, Some msg) => truthy (Some msg) = true
  | _ => False
  end.
Proof.
  destruct parsed as [e|df]; simpl; [reflexivity|].
  destruct (empty df) eqn:E; [reflexivity | auto].
Qed.

Lemma read_table_shape
    (read_csv read_excel : list Byte.byte -> string + DataFrame)
    (file : option UploadedFile) :
  match read_table read_csv read_excel file with
  | (Some df, None) => rows df <> [] /\ columns df <> []
  | (None, Some msg) => truthy (Some msg) = true
  | _ => False
  end.
Proof.
  unfold read_table. destruct file as [f|]; [|reflexivity].
  destruct (parse read_csv read_excel f) as [parsed|]; [|reflexivity].
  pose proof (loaded_shape parsed) as H.
  destruct (loaded parsed) as [[df|] [msg|]]; try assumption.
  destruct H as [_ H]. unfold empty in H.
  destruct (columns df); [discriminate|].
  destruct (rows df); [discriminate|]. split; discriminate.
Qed.

(** X3: the loader returns either a table and no message, or no table and
    a message, never both and never neither; a table it returns has rows
    and columns, and a message it returns is not the empty text, so the
    test [if err] of the script never misses a failure. *)
Theorem read_table_table_or_message
    (read_csv read_excel : list Byte.byte -> string + DataFrame)
    (file : option UploadedFile) :
  match read_table read_csv read_excel file with
  | (Some df, None) => rows df <> [] /\ columns df <> []
  | (None, Some msg) => truthy (Some msg) = true
  | _ => False
  end.
Proof. apply read_table_shape. Qed.

(** X4: the loader answers with the empty-file message exactly when the
    parser chosen for the name returned a table without rows or without
    columns; and with "Error reading file: " followed by a text exactly
    when that parser raised an exception with that text. *)
Theorem read_table_failure_causes
    (read_csv read_excel : list Byte.byte -> string + DataFrame)
    (f : UploadedFile) :
  (read_table read_csv read_excel (Some f) = (None, Some MSG_EMPTY) <->
     exists df, parse read_csv read_excel f = Some (inr df)
                /\ (rows df = [] \/ columns df = []))
  /\ (forall e,
        read_table read_csv read_excel (Some f)
        = (None, Some ("Error reading file: " +++ e)) <->
        parse read_csv read_excel f = Some (inl e)).
Proof.
  unfold read_table.
  destruct (parse read_csv read_excel f) as [[e|df]|]; simpl.
  - split.
    + split; [intros H; discriminate H|]. intros [df [H _]]. discriminate H.
    + intros e'. split.
      * intros [= H]. now subst.
      * intros [= ->]. reflexivity.
  - split.
    + unfold empty. split.
      * intros H. exists df. split; [reflexivity|].
        destruct (columns df); [now right|].
        destruct (rows df); [now left | discriminate H].
      * intros [df' [[= <-] [H|H]]]; rewrite H;
          [now destruct (columns df) | reflexivity].
    + intros e. split; [|intros H; discriminate H].
      destruct (empty df); intros H; discriminate H.
  - split.
    + split; [intros H; discriminate H|]. intros [df [H _]]. discriminate H.
    + intros e. split; intros H; discriminate H.
Qed.

(** ** The outcomes of a run *)

Lemma read_slot_shape
    (read_csv read_excel : list Byte.byte -> string + DataFrame)
    (file : option UploadedFile) :
  match read_slot read_csv read_excel file with
  | (Some df, None) => rows df <> [] /\ columns df <> []
  | (None, Some msg) => file <> None /\ truthy (Some msg) = true
  | (None, None) => file = None
  | _ => False
  end.
Proof.
  unfold read_slot. destruct file as [f|]; [|reflexivity].
  pose proof (read_table_shape read_csv read_excel (Some f)) as H.
  destruct (read_table read_csv read_excel (Some f)) as [[df|] [msg|]];
    try assumption; try contradiction.
  split; [discriminate | assumption].
Qed.

Lemma validate_columns_shape (df : DataFrame) (required_cols : list string)
    (file_label : string) :
  match validate_columns df required_cols file_label with
  | Some msg => missing_columns df required_cols <> []
                /\ (file_label <> "" -> truthy (Some msg) = true)
  | None => missing_columns df required_cols = []
  end.
Proof.
  unfold validate_columns.
  destruct (missing_columns df required_cols) as [|c t]; simpl;
    [reflexivity|].
  split; [discriminate|]. intros H. now destruct file_label.
Qed.

Lemma missing_none_index_of (df : DataFrame) (required_cols : list string)
    (c : string) :
  missing_columns df required_cols = [] -> In c required_cols ->
  exists i, index_of c (columns df) = Some i.
Proof.
  intros Hm Hc. apply index_of_In.
  destruct (has_column c df) eqn:E; [now apply has_column_In|].
  assert (H : In c (missing_columns df required_cols)).
  { apply filter_In. split; [assumption|]. now rewrite E. }
  rewrite Hm in H. contradiction.
Qed.

(** The four ways [main_logic] ends. *)
Lemma main_logic_cases (to_excel : string -> DataFrame -> exception + list Byte.byte)
    (df1 df2 : DataFrame) :
  let v1 := validate_columns df1 [KEY; STATUS] "File 1 (Aloha)" in
  let v2 := validate_columns df2 [KEY] "File 2 (Unbilled)" in
  ((v1 <> None \/ v2 <> None)
   /\ main_logic to_excel df1 df2
      = (show_error "" v1 ++ show_error "" v2, None))
  \/ (v1 = None /\ v2 = None
      /\ ((exists dups, merged_of df1 df2 = inl (MergeError dups)
             /\ main_logic to_excel df1 df2 = ([], Some (MergeError dups)))
          \/ (exists merged, merged_of df1 df2 = inr merged
                /\ has_column STATUS merged = false
                /\ main_logic to_excel df1 df2
                   = ([st_error MSG_NO_STATUS], None))
          \/ (exists merged matched, merged_of df1 df2 = inr merged
                /\ has_column STATUS merged = true
                /\ select_completed_yes merged = inr matched
                /\ main_logic to_excel df1 df2
                   = result_page to_excel merged matched))).
Proof.
  cbv zeta. unfold main_logic.
  pose proof (validate_columns_shape df1 [KEY; STATUS] "File 1 (Aloha)") as S1.
  pose proof (validate_columns_shape df2 [KEY] "File 2 (Unbilled)") as S2.
  destruct (validate_columns df1 [KEY; STATUS] "File 1 (Aloha)") as [m1|].
  { left. destruct S1 as [_ S1]. rewrite S1 by discriminate.
    split; [left; discriminate | reflexivity]. }
  destruct (validate_columns df2 [KEY] "File 2 (Unbilled)") as [m2|].
  { left. destruct S2 as [_ S2]. rewrite S2 by discriminate.
    split; [right; discriminate | reflexivity]. }
  right. split; [reflexivity|]. split; [reflexivity|].
  cbn [truthy negb andb show_error app].
  destruct (missing_none_index_of df1 [KEY; STATUS] KEY S1) as [li H1];
    [now left|].
  destruct (missing_none_index_of df2 [KEY] KEY S2) as [ri H2]; [now left|].
  destruct (merged_of_cases df1 df2 li ri H1 H2) as [E|[d E]]; rewrite E.
  - match goal with |- context [report to_excel ?m] => set (merged := m) end.
    unfold report. destruct (has_column STATUS merged) eqn:Hc; cbn [negb].
    + right. right.
      pose proof (C := I).
      destruct (select_completed_yes merged) as [e|matched] eqn:Hs.
      * exfalso. unfold select_completed_yes in Hs.
        apply has_column_In, index_of_In in Hc. destruct Hc as [i Hi].
        rewrite Hi in Hs. discriminate Hs.
      * exists merged, matched. repeat split; try assumption;
          try reflexivity;
          now destruct (result_page to_excel merged matched).
    + right. left. exists merged. auto.
  - left. exists d. auto.
Qed.

(** The two ways [script] ends: without both tables, or in [main_logic]. *)
Lemma script_cases
    (read_csv read_excel : list Byte.byte -> string + DataFrame)
    (to_excel : string -> DataFrame -> exception + list Byte.byte)
    (file1 file2 : option UploadedFile) :
  ((fst (read_slot read_csv read_excel file1) = None
    \/ fst (read_slot read_csv read_excel file2) = None)
   /\ script read_csv read_excel to_excel file1 file2
      = (show_error "File 1 (Aloha): "
           (snd (read_slot read_csv read_excel file1))
         ++ show_error "File 2 (Unbilled): "
              (snd (read_slot read_csv read_excel file2))
         ++ [st_info MSG_UPLOAD_BOTH], None))
  \/ (exists df1 df2,
        read_slot read_csv read_excel file1 = (Some df1, None)
        /\ read_slot read_csv read_excel file2 = (Some df2, None)
        /\ script read_csv read_excel to_excel file1 file2
           = main_logic to_excel df1 df2).
Proof.
  unfold script.
  pose proof (read_slot_shape read_csv read_excel file1) as S1.
  pose proof (read_slot_shape read_csv read_excel file2) as S2.
  destruct (read_slot read_csv read_excel file1) as [[d1|] e1];
    destruct (read_slot read_csv read_excel file2) as [[d2|] e2];
    cbn [fst snd].
  - destruct e1; [contradiction|]. destruct e2; [contradiction|].
    right. exists d1, d2. cbn [truthy negb andb show_error app].
    now destruct (main_logic to_excel d1 d2).
  - left. rewrite <- app_assoc. auto.
  - left. rewrite <- app_assoc. auto.
  - left. rewrite <- app_assoc. auto.
Qed.

Lemma errors_app (a b : list widget) : errors (a ++ b) = errors a ++ errors b.
Proof.
  induction a as [|w t IH]; simpl; [reflexivity|].
  destruct w; simpl; now rewrite IH.
Qed.

Lemma errors_show_error (prefix : string) (err : option string) :
  errors (show_error prefix err)
  = match err with
    | Some e => if truthy err then [prefix +++ e] else []
    | None => []
    end.
Proof.
  unfold show_error. destruct err as [e|]; [|reflexivity].
  now destruct (truthy (Some e)).
Qed.

Lemma errors_result_page
    (to_excel : string -> DataFrame -> exception + list Byte.byte)
    (merged matched : DataFrame) :
  errors (fst (result_page to_excel merged matched)) = [].
Proof.
  unfold result_page, and_then, show_dataframe, offer_download.
  destruct (distinct (columns (head 200 matched))); [|reflexivity].
  destruct (negb (empty matched)); [|reflexivity].
  now destruct (to_excel SHEET_NAME matched).
Qed.

Lemma only_messages_show_error (prefix : string) (err : option string) :
  only_messages (show_error prefix err).
Proof.
  unfold show_error, only_messages. destruct err as [e|]; [|constructor].
  destruct (truthy (Some e)); repeat constructor.
Qed.

Lemma errors_show_validation (df : DataFrame) (required_cols : list string)
    (file_label : string) :
  file_label <> "" ->
  errors (show_error "" (validate_columns df required_cols file_label))
  = match validate_columns df required_cols file_label with
    | Some m => [m]
    | None => []
    end.
Proof.
  intros Hl. rewrite errors_show_error.
  pose proof (validate_columns_shape df required_cols file_label) as V.
  destruct (validate_columns df required_cols file_label) as [m|];
    [|reflexivity].
  destruct V as [_ V]. now rewrite (V Hl).
Qed.

Lemma In_option_lists (o1 o2 : option string) (m : string) :
  In m (match o1 with Some a => [a] | None => [] end
        ++ match o2 with Some a => [a] | None => [] end)
  <-> o1 = Some m \/ o2 = Some m.
Proof.
  rewrite in_app_iff. destruct o1 as [a|], o2 as [b|]; simpl; split;
    intros H; repeat destruct H as [H|H]; subst; auto;
    try discriminate H; try contradiction;
    try (injection H as ->; auto).
Qed.

(** The error boxes of [main_logic]. *)
Lemma main_logic_errors (to_excel : string -> DataFrame -> exception + list Byte.byte)
    (df1 df2 : DataFrame) (msg : string) :
  In msg (errors (fst (main_logic to_excel df1 df2)))
  <->
  validate_columns df1 [KEY; STATUS] "File 1 (Aloha)" = Some msg
  \/ validate_columns df2 [KEY] "File 2 (Unbilled)" = Some msg
  \/ (validate_columns df1 [KEY; STATUS] "File 1 (Aloha)" = None
      /\ validate_columns df2 [KEY] "File 2 (Unbilled)" = None
      /\ exists merged, merged_of df1 df2 = inr merged
           /\ has_column STATUS merged = false
           /\ msg = MSG_NO_STATUS).
Proof.
  destruct (main_logic_cases to_excel df1 df2)
    as [[Hv ->]|[N1 [N2 [[d [Em ->]]|[[m [Em [Hc ->]]]
                                      |[m [r [Em [Hc [_ ->]]]]]]]]]];
    cbn [fst].
  - rewrite errors_app, !errors_show_validation by discriminate.
    rewrite In_option_lists. split; [tauto|].
    intros [H|[H|[H1 [H2 _]]]]; auto. destruct Hv; contradiction.
  - rewrite N1, N2. cbn [errors In]. split; [tauto|].
    intros [H|[H|[_ [_ [m [Em' _]]]]]]; try discriminate H.
    rewrite Em in Em'. discriminate Em'.
  - rewrite N1, N2. cbn [errors In]. split.
    + intros [<-|[]]. right. right. repeat split. now exists m.
    + intros [H|[H|[_ [_ [m' [_ [_ ->]]]]]]]; try discriminate H. now left.
  - rewrite N1, N2, errors_result_page. split; [intros []|].
    intros [H|[H|[_ [_ [m' [Em' [Hc' _]]]]]]]; try discriminate H.
    rewrite Em in Em'. injection Em' as <-. congruence.
Qed.

(** The error boxes of a run. *)
Lemma script_errors
    (read_csv read_excel : list Byte.byte -> string + DataFrame)
    (to_excel : string -> DataFrame -> exception + list Byte.byte)
    (file1 file2 : option UploadedFile) (msg : string) :
  In msg (errors (fst (script read_csv read_excel to_excel file1 file2)))
  <->
  (exists e, snd (read_slot read_csv read_excel file1) = Some e
             /\ msg = "File 1 (Aloha): " +++ e)
  \/ (exists e, snd (read_slot read_csv read_excel file2) = Some e
                /\ msg = "File 2 (Unbilled): " +++ e)
  \/ (exists df1 df2,
        read_slot read_csv read_excel file1 = (Some df1, None)
        /\ read_slot read_csv read_excel file2 = (Some df2, None)
        /\ (validate_columns df1 [KEY; STATUS] "File 1 (Aloha)" = Some msg
            \/ validate_columns df2 [KEY] "File 2 (Unbilled)" = Some msg
            \/ (validate_columns df1 [KEY; STATUS] "File 1 (Aloha)" = None
                /\ validate_columns df2 [KEY] "File 2 (Unbilled)" = None
                /\ exists merged, merged_of df1 df2 = inr merged
                     /\ has_column STATUS merged = false
                     /\ msg = MSG_NO_STATUS))).
Proof.
  pose proof (read_slot_shape read_csv read_excel file1) as S1.
  pose proof (read_slot_shape read_csv read_excel file2) as S2.
  destruct (script_cases read_csv read_excel to_excel file1 file2)
    as [[Hnone ->]|[d1 [d2 [R1 [R2 ->]]]]].
  - cbn [fst]. rewrite !errors_app, !errors_show_error. cbn [errors].
    rewrite app_nil_r.
    destruct (read_slot read_csv read_excel file1) as [t1 e1].
    destruct (read_slot read_csv read_excel file2) as [t2 e2].
    cbn [fst snd] in *.
    assert (T1 : forall e, e1 = Some e -> truthy e1 = true).
    { intros e ->. destruct t1; [contradiction | tauto]. }
    assert (T2 : forall e, e2 = Some e -> truthy e2 = true).
    { intros e ->. destruct t2; [contradiction | tauto]. }
    rewrite in_app_iff. split.
    + intros [H|H].
      * left. destruct e1 as [e|]; [|contradiction].
        rewrite (T1 e eq_refl) in H. destruct H as [<-|[]]. now exists e.
      * right. left. destruct e2 as [e|]; [|contradiction].
        rewrite (T2 e eq_refl) in H. destruct H as [<-|[]]. now exists e.
    + intros [[e [-> ->]]|[[e [-> ->]]|[x1 [x2 [E1 [E2 _]]]]]].
      * left. rewrite (T1 e eq_refl). now left.
      * right. rewrite (T2 e eq_refl). now left.
      * injection E1 as -> _. injection E2 as -> _.
        destruct Hnone; discriminate.
  - rewrite R1, R2. cbn [snd]. rewrite main_logic_errors. split.
    + intros H. right. right. exists d1, d2. auto.
    + intros [[e [H _]]|[[e [H _]]|[x1 [x2 [[= <-] [[= <-] H]]]]]];
        try discriminate H. assumption.
Qed.

(** X5: the error boxes of a run are exactly its failures: the load
    message of each file that did not load, under that file's prefix; when
    both loaded, the missing-column message of each table that lacks a
    required column (both when both do); and, when the join returned a
    table without a ["Completed"] label, the message of line 103. *)
Theorem shown_errors_are_the_failures
    (read_csv read_excel : list Byte.byte -> string + DataFrame)
    (to_excel : string -> DataFrame -> exception + list Byte.byte)
    (file1 file2 : option UploadedFile) (msg : string) :
  In msg (errors (fst (script read_csv read_excel to_excel file1 file2)))
  <->
  (exists e, snd (read_slot read_csv read_excel file1) = Some e
             /\ msg = "File 1 (Aloha): " +++ e)
  \/ (exists e, snd (read_slot read_csv read_excel file2) = Some e
                /\ msg = "File 2 (Unbilled): " +++ e)
  \/ (exists df1 df2,
        read_slot read_csv read_excel file1 = (Some df1, None)
        /\ read_slot read_csv read_excel file2 = (Some df2, None)
        /\ (validate_columns df1 [KEY; STATUS] "File 1 (Aloha)" = Some msg
            \/ validate_columns df2 [KEY] "File 2 (Unbilled)" = Some msg
            \/ (validate_columns df1 [KEY; STATUS] "File 1 (Aloha)" = None
                /\ validate_columns df2 [KEY] "File 2 (Unbilled)" = None
                /\ exists merged, merged_of df1 df2 = inr merged
                     /\ has_column STATUS merged = false
                     /\ msg = MSG_NO_STATUS))).
Proof.
  apply script_errors.
Qed.

Lemma only_messages_app (a b : list widget) :
  only_messages a -> only_messages b -> only_messages (a ++ b).
Proof. unfold only_messages. intros. now apply Forall_app. Qed.

Lemma exported_only_messages (ws : list widget) :
  only_messages ws -> exported ws = [].
Proof.
  induction 1 as [|w t Hw Ht IH]; [reflexivity|].
  destruct w; simpl; try contradiction; assumption.
Qed.

(** X6: a run that shows an error box shows nothing but error boxes and
    notes: no counts, no preview and no download, and it ends without an
    exception. *)
Theorem error_means_no_result
    (read_csv read_excel : list Byte.byte -> string + DataFrame)
    (to_excel : string -> DataFrame -> exception + list Byte.byte)
    (file1 file2 : option UploadedFile) :
  errors (fst (script read_csv read_excel to_excel file1 file2)) <> [] ->
  only_messages (fst (script read_csv read_excel to_excel file1 file2))
  /\ exported (fst (script read_csv read_excel to_excel file1 file2)) = []
  /\ snd (script read_csv read_excel to_excel file1 file2) = None.
Proof.
  intros He.
  assert (H : only_messages
                (fst (script read_csv read_excel to_excel file1 file2))
              /\ snd (script read_csv read_excel to_excel file1 file2)
                 = None).
  { destruct (script_cases read_csv read_excel to_excel file1 file2)
      as [[_ E]|[d1 [d2 [_ [_ E]]]]]; rewrite E in *; clear E.
    - split; [|reflexivity]. cbn [fst].
      repeat apply only_messages_app; try apply only_messages_show_error.
      repeat constructor.
    - destruct (main_logic_cases to_excel d1 d2)
        as [[_ E]|[_ [_ [[d [_ E]]|[[m [_ [_ E]]]|[m [r [_ [_ [_ E]]]]]]]]]];
        rewrite E in *; clear E; cbn [fst snd] in *.
      + split; [|reflexivity].
        apply only_messages_app; apply only_messages_show_error.
      + now elim He.
      + split; [repeat constructor | reflexivity].
      + rewrite errors_result_page in He. now elim He. }
  destruct H as [H1 H2]. auto using exported_only_messages.
Qed.

Lemma error_means_no_result_unsupported :
  only_messages
    (fst (script (Sample.csv_gives Sample.aloha) Sample.unreadable
            Sample.no_bytes (Some Sample.aloha_csv) (Some Sample.notes_txt)))
  /\ exported
       (fst (script (Sample.csv_gives Sample.aloha) Sample.unreadable
               Sample.no_bytes (Some Sample.aloha_csv)
               (Some Sample.notes_txt))) = []
  /\ snd (script (Sample.csv_gives Sample.aloha) Sample.unreadable
            Sample.no_bytes (Some Sample.aloha_csv) (Some Sample.notes_txt))
     = None.
Proof.
  apply error_means_no_result. vm_compute. discriminate.
Defined.

(** ** A run that computes a filtered table *)

Lemma distinct_NoDup (labels : list string) :
  distinct labels = true <-> NoDup labels.
Proof.
  induction labels as [|x t IH]; simpl.
  - split; [constructor | reflexivity].
  - rewrite andb_true_iff, negb_true_iff, existsb_eqb_not_In, IH.
    split.
    + intros [Hx Ht]. now constructor.
    + intros H. inversion H; subst. now split.
Qed.

(** Lines 113 to 137, case by case. *)
Lemma result_page_cases
    (to_excel : string -> DataFrame -> exception + list Byte.byte)
    (merged matched : DataFrame) :
  result_page to_excel merged matched
  = if distinct (columns matched)
    then
      if empty matched
      then (counts merged matched
            ++ [st_dataframe (head 200 matched); st_info MSG_NO_ROWS], None)
      else
        match to_excel SHEET_NAME matched with
        | inr data =>
            (counts merged matched
             ++ [st_dataframe (head 200 matched);
                 st_download_button
                   "Download Matched Sessions (Completed = Yes)"
                   data FILE_NAME MIME], None)
        | inl e =>
            (counts merged matched ++ [st_dataframe (head 200 matched)],
             Some e)
        end
    else (counts merged matched, Some DUPLICATE_LABELS).
Proof.
  unfold result_page, and_then, show_dataframe, offer_download.
  cbn [head columns fst snd].
  destruct (distinct (columns matched)); cbn [fst snd];
    [|now rewrite app_nil_r].
  destruct (empty matched); cbn [negb fst snd]; [reflexivity|].
  destruct (to_excel SHEET_NAME matched); cbn [fst snd]; [|reflexivity].
  now rewrite app_nil_r.
Qed.

(** A run has a filtered table exactly when both files loaded, both tables
    passed validation, the join returned and kept the status label; the run
    then ends in [result_page]. *)
Lemma script_with_result
    (read_csv read_excel : list Byte.byte -> string + DataFrame)
    (to_excel : string -> DataFrame -> exception + list Byte.byte)
    (file1 file2 : option UploadedFile) (matched : DataFrame) :
  filtered_result read_csv read_excel file1 file2 = Some matched ->
  exists df1 df2 merged,
    read_slot read_csv read_excel file1 = (Some df1, None)
    /\ read_slot read_csv read_excel file2 = (Some df2, None)
    /\ missing_columns df1 [KEY; STATUS] = []
    /\ missing_columns df2 [KEY] = []
    /\ merged_of df1 df2 = inr merged
    /\ select_completed_yes merged = inr matched
    /\ columns matched <> []
    /\ script read_csv read_excel to_excel file1 file2
       = result_page to_excel merged matched.
Proof.
  unfold filtered_result.
  destruct (script_cases read_csv read_excel to_excel file1 file2)
    as [[Hn _]|[d1 [d2 [R1 [R2 E]]]]].
  - destruct (read_slot read_csv read_excel file1) as [[t1|] e1];
      destruct (read_slot read_csv read_excel file2) as [[t2|] e2];
      cbn [fst] in Hn; try discriminate; destruct Hn; discriminate.
  - rewrite R1, R2, E. clear E. cbn [truthy negb andb].
    pose proof (validate_columns_shape d1 [KEY; STATUS] "File 1 (Aloha)")
      as V1.
    pose proof (validate_columns_shape d2 [KEY] "File 2 (Unbilled)") as V2.
    destruct (main_logic_cases to_excel d1 d2)
      as [[Hv _]|[N1 [N2 [[d [Em _]]|[[m [Em [Hc _]]]
                                      |[m [r [Em [Hc [Hs E]]]]]]]]]].
    + destruct (validate_columns d1 [KEY; STATUS] "File 1 (Aloha)").
      { destruct V1 as [_ V1]. rewrite V1 by discriminate. discriminate. }
      destruct (validate_columns d2 [KEY] "File 2 (Unbilled)").
      { destruct V2 as [_ V2]. rewrite V2 by discriminate.
        cbn [truthy negb andb]. discriminate. }
      destruct Hv; contradiction.
    + rewrite N1, N2, Em. discriminate.
    + rewrite N1, N2, Em, Hc. discriminate.
    + rewrite N1 in V1. rewrite N2 in V2.
      rewrite N1, N2, Em, Hc, Hs. cbn [truthy negb andb].
      intros [= <-]. exists d1, d2, m. repeat split; try assumption.
      apply select_completed_yes_inr in Hs.
      destruct Hs as [i [_ [Hcols _]]]. rewrite Hcols.
      apply has_column_In in Hc. intros E0. now rewrite E0 in Hc.
Qed.

(** A run without a filtered table offers no download, and raises only the
    MergeError of the join, with nothing shown. *)
Lemma script_without_result
    (read_csv read_excel : list Byte.byte -> string + DataFrame)
    (to_excel : string -> DataFrame -> exception + list Byte.byte)
    (file1 file2 : option UploadedFile) :
  filtered_result read_csv read_excel file1 file2 = None ->
  exported (fst (script read_csv read_excel to_excel file1 file2)) = []
  /\ forall raised,
       snd (script read_csv read_excel to_excel file1 file2) = Some raised ->
       exists dups df1 df2,
         raised = MergeError dups
         /\ read_slot read_csv read_excel file1 = (Some df1, None)
         /\ read_slot read_csv read_excel file2 = (Some df2, None)
         /\ missing_columns df1 [KEY; STATUS] = []
         /\ missing_columns df2 [KEY] = []
         /\ merged_of df1 df2 = inl (MergeError dups)
         /\ fst (script read_csv read_excel to_excel file1 file2) = [].
Proof.
  unfold filtered_result.
  destruct (script_cases read_csv read_excel to_excel file1 file2)
    as [[_ E]|[d1 [d2 [R1 [R2 E]]]]]; rewrite E; clear E.
  - intros _. cbn [fst snd]. split; [|intros r H; discriminate H].
    rewrite !exported_app, !exported_show_error. reflexivity.
  - rewrite R1, R2.
    pose proof (validate_columns_shape d1 [KEY; STATUS] "File 1 (Aloha)")
      as V1.
    pose proof (validate_columns_shape d2 [KEY] "File 2 (Unbilled)") as V2.
    destruct (main_logic_cases to_excel d1 d2)
      as [[_ E]|[N1 [N2 [[d [Em E]]|[[m [Em [Hc E]]]
                                     |[m [r [Em [Hc [Hs E]]]]]]]]]];
      rewrite E; clear E; cbn [fst snd].
    + intros _. split; [|intros r H; discriminate H].
      now rewrite exported_app, !exported_show_error.
    + intros _. split; [reflexivity|]. intros r [= <-].
      rewrite N1 in V1. rewrite N2 in V2. exists d, d1, d2. auto 10.
    + intros _. split; [reflexivity | intros r H; discriminate H].
    + rewrite N1, N2, Em, Hc, Hs. cbn [truthy negb andb]. discriminate.
Qed.

(** C6, as the code has it: a run offers the download exactly when it
    computed a filtered table that has a row and distinct labels and the
    writer returned its bytes; it then offers one, made of those bytes,
    under the file name "matched_sessions_completed_yes.xlsx" and the
    spreadsheet MIME type.  When the filtered table has no row nothing is
    written or offered, and (its labels being distinct) the note that no
    rows were found is shown.  When a label is repeated the preview of line
    117 raises ValueError before the export, and when the writer raises the
    run ends with the writer's exception. *)
Theorem C6_download_iff_result_has_rows
    (read_csv read_excel : list Byte.byte -> string + DataFrame)
    (to_excel : string -> DataFrame -> exception + list Byte.byte)
    (file1 file2 : option UploadedFile) :
  let run := script read_csv read_excel to_excel file1 file2 in
  let result := filtered_result read_csv read_excel file1 file2 in
  (forall artifact, In artifact (exported (fst run)) <->
     exists R data, result = Some R /\ rows R <> []
                    /\ NoDup (columns R)
                    /\ to_excel SHEET_NAME R = inr data
                    /\ artifact = (data, FILE_NAME, MIME))
  /\ List.length (exported (fst run)) <= 1
  /\ (forall R, result = Some R -> rows R = [] ->
        exported (fst run) = []
        /\ (NoDup (columns R) ->
            In (st_info MSG_NO_ROWS) (fst run) /\ snd run = None))
  /\ (forall R, result = Some R -> ~ NoDup (columns R) ->
        snd run = Some DUPLICATE_LABELS)
  /\ (forall R e, result = Some R -> NoDup (columns R) -> rows R <> [] ->
        to_excel SHEET_NAME R = inl e -> snd run = Some e).
Proof.
  cbv zeta.
  destruct (filtered_result read_csv read_excel file1 file2) as [R|] eqn:HR.
  - destruct (script_with_result read_csv read_excel to_excel file1 file2
                R HR)
      as [d1 [d2 [m [_ [_ [_ [_ [_ [_ [Hcols ->]]]]]]]]]].
    rewrite result_page_cases.
    assert (Hempty : empty R = match rows R with [] => true | _ => false end).
    { unfold empty. destruct (columns R); [congruence | reflexivity]. }
    rewrite Hempty.
    pose proof (distinct_NoDup (columns R)) as Hd.
    destruct (distinct (columns R)).
    + assert (Hnd : NoDup (columns R)) by now apply Hd.
      destruct (rows R) as [|r rs] eqn:Hr.
      * cbn [fst snd]. rewrite exported_app. cbn [counts exported app].
        split; [|split; [|split; [|split]]].
        -- intros a. split; [intros []|].
           intros [R' [data [[= <-] [Hne _]]]]. rewrite Hr in Hne.
           congruence.
        -- simpl. lia.
        -- intros R' _ _. split; [reflexivity|]. intros _.
           split; [|reflexivity]. simpl. auto 10.
        -- intros R' [= <-] Hn. contradiction.
        -- intros R' e [= <-] _ Hne. rewrite Hr in Hne. congruence.
      * destruct (to_excel SHEET_NAME R) as [e|data] eqn:Hw;
          cbn [fst snd]; rewrite exported_app; cbn [counts exported app].
        -- split; [|split; [|split; [|split]]].
           ++ intros a. split; [intros []|].
              intros [R' [data [[= <-] [_ [_ [Hw' _]]]]]].
              rewrite Hw in Hw'. discriminate Hw'.
           ++ simpl. lia.
           ++ intros R' [= <-] Hr'. rewrite Hr in Hr'. discriminate Hr'.
           ++ intros R' [= <-] Hn. contradiction.
           ++ intros R' e' [= <-] _ _ Hw'. rewrite Hw in Hw'.
              now injection Hw' as ->.
        -- split; [|split; [|split; [|split]]].
           ++ intros a. split.
              ** intros [<-|[]]. exists R, data. rewrite Hr.
                 repeat split; try assumption. discriminate.
              ** intros [R' [data' [[= <-] [_ [_ [Hw' ->]]]]]].
                 rewrite Hw in Hw'. injection Hw' as ->. now left.
           ++ simpl. lia.
           ++ intros R' [= <-] Hr'. rewrite Hr in Hr'. discriminate Hr'.
           ++ intros R' [= <-] Hn. contradiction.
           ++ intros R' e' [= <-] _ _ Hw'. rewrite Hw in Hw'.
              discriminate Hw'.
    + assert (Hnd : ~ NoDup (columns R)).
      { intros H. apply Hd in H. discriminate H. }
      cbn [fst snd counts exported].
      split; [|split; [|split; [|split]]].
      * intros a. split; [intros []|].
        intros [R' [data [[= <-] [_ [Hn _]]]]]. contradiction.
      * simpl. lia.
      * intros R' [= <-] _. split; [reflexivity|]. intros Hn.
        contradiction.
      * intros R' _ _. reflexivity.
      * intros R' e [= <-] Hn. contradiction.
  - destruct (script_without_result read_csv read_excel to_excel file1 file2
                HR) as [He _].
    rewrite He. split; [|split; [|split; [|split]]].
    + intros a. split; [intros []|]. intros [R [d [H _]]]. discriminate H.
    + simpl. lia.
    + intros R H. discriminate H.
    + intros R H. discriminate H.
    + intros R e H. discriminate H.
Qed.

(** Two validated uploads whose join has the label "X_unbilled" twice: the
    filtered table has a row, yet the run ends in the ValueError of the
    preview and offers no download. *)
Lemma C6_repeated_label_no_download :
  filtered_result (Sample.csv_gives Sample.aloha_x_and_x_unbilled)
    (Sample.csv_gives Sample.unbilled_x)
    (Some Sample.aloha_csv) (Some Sample.unbilled_xlsx)
  = Some Sample.joined_x_twice
  /\ rows Sample.joined_x_twice
     = [[CStr "1"; CStr "Yes"; CInt 10; CInt 11; CInt 20]]
  /\ script (Sample.csv_gives Sample.aloha_x_and_x_unbilled)
       (Sample.csv_gives Sample.unbilled_x) Sample.no_bytes
       (Some Sample.aloha_csv) (Some Sample.unbilled_xlsx)
     = (counts Sample.joined_x_twice Sample.joined_x_twice,
        Some DUPLICATE_LABELS)
  /\ exported (counts Sample.joined_x_twice Sample.joined_x_twice) = [].
Proof. repeat split. Qed.

(** X7: a run ends in an exception in three ways only, each after both
    tables loaded and passed validation: the MergeError of the join, with
    nothing shown; the ValueError of the preview, when the filtered table
    has a label twice, with the header and the counts shown; and whatever
    the writer raised on a filtered table with rows, with the preview shown
    too.  The key lookups of lines 89 and 90 and the column lookup of line
    106 never raise, because the checks before them hold. *)
Theorem script_raises_in_three_ways
    (read_csv read_excel : list Byte.byte -> string + DataFrame)
    (to_excel : string -> DataFrame -> exception + list Byte.byte)
    (file1 file2 : option UploadedFile) :
  match snd (script read_csv read_excel to_excel file1 file2) with
  | None => True
  | Some raised =>
      exists df1 df2,
        read_slot read_csv read_excel file1 = (Some df1, None)
        /\ read_slot read_csv read_excel file2 = (Some df2, None)
        /\ missing_columns df1 [KEY; STATUS] = []
        /\ missing_columns df2 [KEY] = []
        /\ ((exists dups,
               raised = MergeError dups
               /\ merged_of df1 df2 = inl (MergeError dups)
               /\ fst (script read_csv read_excel to_excel file1 file2) = [])
            \/ (exists merged matched,
                  merged_of df1 df2 = inr merged
                  /\ select_completed_yes merged = inr matched
                  /\ ((~ NoDup (columns matched)
                       /\ raised = DUPLICATE_LABELS
                       /\ fst (script read_csv read_excel to_excel
                                 file1 file2)
                          = counts merged matched)
                      \/ (NoDup (columns matched)
                          /\ rows matched <> []
                          /\ to_excel SHEET_NAME matched = inl raised
                          /\ fst (script read_csv read_excel to_excel
                                    file1 file2)
                             = counts merged matched
                               ++ [st_dataframe (head 200 matched)]))))
  end.
Proof.
  destruct (filtered_result read_csv read_excel file1 file2) as [R|] eqn:HR.
  - destruct (script_with_result read_csv read_excel to_excel file1 file2
                R HR)
      as [d1 [d2 [m [R1 [R2 [M1 [M2 [Em [Hs [Hcols ->]]]]]]]]]].
    rewrite result_page_cases.
    assert (Hempty : empty R = match rows R with [] => true | _ => false end).
    { unfold empty. destruct (columns R); [congruence | reflexivity]. }
    rewrite Hempty.
    pose proof (distinct_NoDup (columns R)) as Hd.
    destruct (distinct (columns R)).
    + destruct (rows R) as [|r rs] eqn:Hr; [exact I|].
      destruct (to_excel SHEET_NAME R) as [e|data] eqn:Hw; [|exact I].
      assert (Hnd : NoDup (columns R)) by now apply Hd.
      cbn [fst snd]. exists d1, d2. repeat split; try assumption.
      right. exists m, R. split; [assumption|]. split; [assumption|].
      right. split; [assumption|]. split; [rewrite Hr; discriminate|].
      split; [assumption | reflexivity].
    + assert (Hnd : ~ NoDup (columns R)).
      { intros H. apply Hd in H. discriminate H. }
      cbn [fst snd]. exists d1, d2. repeat split; try assumption.
      right. exists m, R. split; [assumption|]. split; [assumption|].
      left. split; [assumption|]. split; reflexivity.
  - destruct (script_without_result read_csv read_excel to_excel file1 file2
                HR) as [_ H].
    destruct (snd (script read_csv read_excel to_excel file1 file2))
      as [raised|]; [|exact I].
    destruct (H raised eq_refl) as [d [d1 [d2 [-> [R1 [R2 [M1 [M2 [Em E]]]]]]]]].
    exists d1, d2. repeat split; try assumption. left. exists d. auto.
Qed.

(** X8: a run that computes a filtered table got it from the joined table
    of the two loaded tables, and shows the header, the number of rows of
    that joined table and the number of kept rows, which is never larger.
    If a label of the filtered table is repeated the run ends there with
    the ValueError of the preview.  Otherwise it shows the first
    min(200, kept) rows as preview and then: the note, when no row is kept;
    the download of what the writer wrote; or nothing more, ending with the
    writer's exception. *)
Theorem result_page_of_a_run
    (read_csv read_excel : list Byte.byte -> string + DataFrame)
    (to_excel : string -> DataFrame -> exception + list Byte.byte)
    (file1 file2 : option UploadedFile) (matched : DataFrame) :
  filtered_result read_csv read_excel file1 file2 = Some matched ->
  exists df1 df2 merged,
    read_slot read_csv read_excel file1 = (Some df1, None)
    /\ read_slot read_csv read_excel file2 = (Some df2, None)
    /\ merged_of df1 df2 = inr merged
    /\ select_completed_yes merged = inr matched
    /\ script read_csv read_excel to_excel file1 file2
       = (if distinct (columns matched)
          then
            match rows matched with
            | [] =>
                (counts merged matched
                 ++ [st_dataframe (head 200 matched); st_info MSG_NO_ROWS],
                 None)
            | _ :: _ =>
                match to_excel SHEET_NAME matched with
                | inr data =>
                    (counts merged matched
                     ++ [st_dataframe (head 200 matched);
                         st_download_button
                           "Download Matched Sessions (Completed = Yes)"
                           data FILE_NAME MIME], None)
                | inl e =>
                    (counts merged matched
                     ++ [st_dataframe (head 200 matched)], Some e)
                end
            end
          else (counts merged matched, Some DUPLICATE_LABELS))
    /\ len matched <= len merged
    /\ len (head 200 matched) = Nat.min 200 (len matched)
    /\ rows (head 200 matched) = firstn 200 (rows matched).
Proof.
  intros HR.
  destruct (script_with_result read_csv read_excel to_excel file1 file2
              matched HR)
    as [d1 [d2 [m [R1 [R2 [_ [_ [Em [Hs [Hcols ->]]]]]]]]]].
  exists d1, d2, m. repeat split; try assumption.
  - rewrite result_page_cases. unfold empty.
    destruct (columns matched); [congruence|].
    now destruct (rows matched).
  - apply select_completed_yes_inr in Hs.
    destruct Hs as [i [_ [_ Hr]]]. unfold len. rewrite Hr.
    apply filter_length_le.
  - unfold len, head. cbn [rows]. apply length_firstn.
Qed.

Lemma result_page_of_the_scenario :
  exists df1 df2 merged,
    read_slot (Sample.csv_gives Sample.aloha)
      (Sample.csv_gives Sample.unbilled) (Some Sample.aloha_csv)
    = (Some df1, None)
    /\ read_slot (Sample.csv_gives Sample.aloha)
         (Sample.csv_gives Sample.unbilled) (Some Sample.unbilled_xlsx)
       = (Some df2, None)
    /\ merged_of df1 df2 = inr merged
    /\ select_completed_yes merged = inr Sample.joined
    /\ script (Sample.csv_gives Sample.aloha)
         (Sample.csv_gives Sample.unbilled) Sample.refusing
         (Some Sample.aloha_csv) (Some Sample.unbilled_xlsx)
       = (if distinct (columns Sample.joined)
          then
            match rows Sample.joined with
            | [] =>
                (counts merged Sample.joined
                 ++ [st_dataframe (head 200 Sample.joined);
                     st_info MSG_NO_ROWS], None)
            | _ :: _ =>
                match Sample.refusing SHEET_NAME Sample.joined with
                | inr data =>
                    (counts merged Sample.joined
                     ++ [st_dataframe (head 200 Sample.joined);
                         st_download_button
                           "Download Matched Sessions (Completed = Yes)"
                           data FILE_NAME MIME], None)
                | inl e =>
                    (counts merged Sample.joined
                     ++ [st_dataframe (head 200 Sample.joined)], Some e)
                end
            end
          else (counts merged Sample.joined, Some DUPLICATE_LABELS))
    /\ len Sample.joined <= len merged
    /\ len (head 200 Sample.joined) = Nat.min 200 (len Sample.joined)
    /\ rows (head 200 Sample.joined) = firstn 200 (rows Sample.joined).
Proof.
  apply result_page_of_a_run. reflexivity.
Defined.


(** ** Keys *)

Lemma str_of_int_inj (x y : Z) :
  Text.str_of_int x = Text.str_of_int y -> x = y.
Proof.
  unfold Text.str_of_int. intros H.
  assert (Hnn : forall z, Z.to_int z <> Decimal.Pos Decimal.Nil
                          /\ Z.to_int z <> Decimal.Neg Decimal.Nil).
  { intros z. split; intros E; pose proof (f_equal Z.of_int E) as E0;
      rewrite DecimalZ.of_to in E0; simpl in E0; subst z;
      discriminate E. }
  apply DecimalZ.to_int_inj.
  assert (Hs : Some (Z.to_int x) = Some (Z.to_int y)).
  { rewrite <- (NilZero.isi (Z.to_int x)) by apply Hnn.
    rewrite <- (NilZero.isi (Z.to_int y)) by apply Hnn.
    now rewrite H. }
  now injection Hs.
Qed.

(** X9: every row of the joined table is made of a row of each table whose
    key texts are equal; when both keys are integers they are the same
    integer, so rows with different numbers are never joined.  Rows whose
    key is missing in both tables are joined with one another. *)
Theorem joined_rows_have_equal_keys (df1 df2 merged : DataFrame) :
  valid_table [KEY; STATUS] df1 ->
  valid_table [KEY] df2 ->
  merged_of df1 df2 = inr merged ->
  (forall r, In r (rows merged) ->
     exists a b ka kb,
       In a (rows df1) /\ In b (rows df2)
       /\ lookup df1 KEY a = Some ka /\ lookup df2 KEY b = Some kb
       /\ py_str ka = py_str kb
       /\ r = joined_row df1 df2 a b
       /\ (forall x y, ka = CInt x -> kb = CInt y -> x = y))
  /\ (forall a b, In a (rows df1) -> In b (rows df2) ->
        lookup df1 KEY a = Some CNaN -> lookup df2 KEY b = Some CNaN ->
        In (joined_row df1 df2 a b) (rows merged)).
Proof.
  intros V1 V2 E. split.
  - intros r Hr. apply (In_rows_merged df1 df2 merged r V1 V2 E) in Hr.
    destruct Hr as [a [b [ka [kb [Ha [Hb [Hka [Hkb [Hk ->]]]]]]]]].
    exists a, b, ka, kb. repeat split; try assumption.
    intros x y -> ->. now apply str_of_int_inj.
  - intros a b Ha Hb Hka Hkb.
    apply (In_rows_merged df1 df2 merged _ V1 V2 E).
    exists a, b, CNaN, CNaN. auto 10.
Qed.

Lemma joined_rows_have_equal_keys_scenario :
  (forall r, In r (rows Sample.joined) ->
     exists a b ka kb,
       In a (rows Sample.aloha) /\ In b (rows Sample.unbilled)
       /\ lookup Sample.aloha KEY a = Some ka
       /\ lookup Sample.unbilled KEY b = Some kb
       /\ py_str ka = py_str kb
       /\ r = joined_row Sample.aloha Sample.unbilled a b
       /\ (forall x y, ka = CInt x -> kb = CInt y -> x = y))
  /\ (forall a b, In a (rows Sample.aloha) -> In b (rows Sample.unbilled) ->
        lookup Sample.aloha KEY a = Some CNaN ->
        lookup Sample.unbilled KEY b = Some CNaN ->
        In (joined_row Sample.aloha Sample.unbilled a b)
           (rows Sample.joined)).
Proof.
  assert (V1 : valid_table [KEY; STATUS] Sample.aloha) by valid_sample.
  assert (V2 : valid_table [KEY] Sample.unbilled) by valid_sample.
  exact (joined_rows_have_equal_keys Sample.aloha Sample.unbilled
           Sample.joined V1 V2 eq_refl).
Defined.

(** ** The filtered table, row by row *)

Lemma index_of_status_merged (df1 df2 merged : DataFrame) (si : nat) :
  ~ In STATUS (columns df2) ->
  index_of STATUS (columns df1) = Some si ->
  merged_of df1 df2 = inr merged ->
  index_of STATUS (columns merged) = Some si.
Proof.
  intros Hn Hs E. apply merged_of_inr in E.
  destruct E as [li [ri [_ [_ [Hcols _]]]]].
  rewrite Hcols. apply index_of_app_l.
  rewrite index_of_map_renamer; [assumption| |reflexivity].
  intros Hin. apply overlap_In in Hin. destruct Hin as [_ Hin].
  now apply In_drop_at in Hin.
Qed.

(** X10: when the second table has no ["Completed"] column the joined
    table has that label, and the filtered table holds exactly the joined
    rows of the pairs (a, b) with equal key texts in which the first
    table's row a passes the status test. *)
Theorem filtered_rows_are_matching_completed_pairs
    (df1 df2 merged : DataFrame) :
  valid_table [KEY; STATUS] df1 ->
  valid_table [KEY] df2 ->
  ~ In STATUS (columns df2) ->
  merged_of df1 df2 = inr merged ->
  has_column STATUS merged = true
  /\ exists matched,
       select_completed_yes merged = inr matched
       /\ forall r, In r (rows matched) <->
            exists a b ka kb status,
              In a (rows df1) /\ In b (rows df2)
              /\ lookup df1 KEY a = Some ka /\ lookup df2 KEY b = Some kb
              /\ py_str ka = py_str kb
              /\ lookup df1 STATUS a = Some status
              /\ completed_yes status = true
              /\ r = joined_row df1 df2 a b.
Proof.
  intros V1 V2 Hn E.
  destruct (valid_table_key [KEY; STATUS] df1) as [li [H1 HL]];
    [now left | assumption |].
  destruct (valid_table_key [KEY] df2) as [ri [H2 _]];
    [now left | assumption |].
  assert (Hs1 : In STATUS (columns df1)).
  { apply (valid_table_In [KEY; STATUS]); [simpl; tauto | assumption]. }
  apply index_of_In in Hs1. destruct Hs1 as [si Hsi].
  pose proof (index_of_status_merged df1 df2 merged si Hn Hsi E) as Hm.
  assert (Hne : si <> li).
  { intros ->. assert (STATUS = KEY)
      by now apply (index_of_inj STATUS KEY (columns df1) li).
    discriminate. }
  assert (Hcell : forall a b, In a (rows df1) ->
            cell_at si (joined_row df1 df2 a b) = cell_at si a).
  { intros a b Ha. unfold joined_row. rewrite H1, H2.
    apply cell_at_joined_left; [|assumption].
    destruct V1 as [_ [Hwf _]]. unfold well_formed in Hwf.
    rewrite Forall_forall in Hwf. rewrite (Hwf a Ha).
    now apply (index_of_lt STATUS). }
  split.
  - apply has_column_In, index_of_In. now exists si.
  - unfold select_completed_yes. rewrite Hm. eexists.
    split; [reflexivity|]. cbn [rows]. intros r. rewrite filter_In.
    rewrite (In_rows_merged df1 df2 merged r V1 V2 E).
    assert (Hlk : forall a, lookup df1 STATUS a = Some (cell_at si a)).
    { intros a. unfold lookup. now rewrite Hsi. }
    split.
    + intros [[a [b [ka [kb [Ha [Hb [Hka [Hkb [Hk ->]]]]]]]]] Hy].
      rewrite (Hcell a b Ha) in Hy.
      exists a, b, ka, kb, (cell_at si a). rewrite Hlk. auto 10.
    + intros [a [b [ka [kb [st [Ha [Hb [Hka [Hkb [Hk [Hst [Hy ->]]]]]]]]]]]].
      rewrite Hlk in Hst. injection Hst as <-.
      split; [exists a, b, ka, kb; auto 10|].
      now rewrite (Hcell a b Ha).
Qed.

Lemma filtered_rows_of_the_scenario :
  has_column STATUS Sample.joined = true
  /\ exists matched,
       select_completed_yes Sample.joined = inr matched
       /\ forall r, In r (rows matched) <->
            exists a b ka kb status,
              In a (rows Sample.aloha) /\ In b (rows Sample.unbilled)
              /\ lookup Sample.aloha KEY a = Some ka
              /\ lookup Sample.unbilled KEY b = Some kb
              /\ py_str ka = py_str kb
              /\ lookup Sample.aloha STATUS a = Some status
              /\ completed_yes status = true
              /\ r = joined_row Sample.aloha Sample.unbilled a b.
Proof.
  assert (V1 : valid_table [KEY; STATUS] Sample.aloha) by valid_sample.
  assert (V2 : valid_table [KEY] Sample.unbilled) by valid_sample.
  apply (filtered_rows_are_matching_completed_pairs Sample.aloha
           Sample.unbilled Sample.joined V1 V2); [|reflexivity].
  simpl. intuition discriminate.
Defined.

(** ** Shape of the tables *)

Lemma to_text_idem (v : cell) : to_text (to_text v) = to_text v.
Proof. reflexivity. Qed.

Lemma update_at_idem {A : Type} (i : nat) (f : A -> A) (l : list A) :
  (forall x, f (f x) = f x) ->
  update_at i f (update_at i f l) = update_at i f l.
Proof.
  intros Hf. revert i. induction l as [|x t IH]; intros [|j]; simpl;
    try reflexivity; [now rewrite Hf | now rewrite IH].
Qed.

(** X11: turning a column to text changes nothing else: the labels, the
    number of rows, the length of every row and every cell of another
    column stay as they were, a cell of the column becomes the text of
    what it held, and doing it a second time changes nothing. *)
Theorem astype_str_column_only_retypes (c : string) (df df' : DataFrame) :
  astype_str_column c df = inr df' ->
  columns df' = columns df
  /\ len df' = len df
  /\ (well_formed df -> well_formed df')
  /\ astype_str_column c df' = inr df'
  /\ (forall k c' r r', nth_error (rows df) k = Some r ->
        nth_error (rows df') k = Some r' ->
        List.length r' = List.length r
        /\ (c' <> c -> lookup df' c' r' = lookup df c' r)
        /\ (well_formed df ->
            lookup df' c r' = option_map to_text (lookup df c r))).
Proof.
  unfold astype_str_column.
  destruct (index_of c (columns df)) as [i|] eqn:Hi; [|discriminate].
  intros [= <-]. cbn [columns rows]. rewrite Hi.
  split; [reflexivity|]. split; [unfold len; cbn [rows]; apply length_map|].
  split; [|split].
  - unfold well_formed. cbn [columns rows]. rewrite Forall_map.
    apply Forall_impl. intros r Hr. now rewrite update_at_length.
  - f_equal. f_equal. rewrite map_map. apply map_ext. intros r.
    apply update_at_idem. apply to_text_idem.
  - intros k c' r r' Hr Hr'. cbn [rows] in Hr'.
    rewrite nth_error_map in Hr'. unfold row in *. rewrite Hr in Hr'.
    cbn [option_map] in Hr'.
    injection Hr' as <-. split; [apply update_at_length|]. split.
    + intros Hne. unfold lookup. cbn [columns].
      destruct (index_of c' (columns df)) as [j|] eqn:Hj; [|reflexivity].
      cbn [option_map]. f_equal. unfold cell_at.
      apply nth_update_at_other. intros ->. apply Hne.
      now apply (index_of_inj c' c (columns df) j).
    + intros Hwf. unfold lookup. cbn [columns]. rewrite Hi.
      cbn [option_map]. f_equal. apply cell_at_to_text.
      unfold well_formed in Hwf. rewrite Forall_forall in Hwf.
      rewrite (Hwf r) by (eapply nth_error_In; eauto).
      now apply (index_of_lt c).
Qed.

Lemma astype_str_column_twice_sample :
  astype_str_column KEY
    (mkDataFrame ["Appointment ID"; "Completed"] [[CStr "123"; CStr "Yes"]])
  = inr (mkDataFrame ["Appointment ID"; "Completed"]
           [[CStr "123"; CStr "Yes"]]).
Proof.
  exact (proj1 (proj2 (proj2 (proj2
           (astype_str_column_only_retypes KEY Sample.aloha_number_key
              _ eq_refl))))).
Defined.

(** X12: the joined table of two validated tables has one cell per label
    in every row, and so has the filtered table, which keeps the labels of
    the joined one. *)
Theorem joined_and_filtered_tables_well_formed
    (df1 df2 merged : DataFrame) :
  valid_table [KEY; STATUS] df1 ->
  valid_table [KEY] df2 ->
  merged_of df1 df2 = inr merged ->
  well_formed merged
  /\ forall matched, select_completed_yes merged = inr matched ->
       columns matched = columns merged /\ well_formed matched.
Proof.
  intros V1 V2 E.
  destruct (valid_table_key [KEY; STATUS] df1) as [li [H1 HL]];
    [now left | assumption |].
  destruct (valid_table_key [KEY] df2) as [ri [H2 HR]];
    [now left | assumption |].
  destruct V1 as [_ [Hwf1 _]]. destruct V2 as [_ [Hwf2 _]].
  apply merged_of_inr in E.
  destruct E as [li' [ri' [H1' [H2' [Hcols Hrows]]]]].
  rewrite H1 in H1'. rewrite H2 in H2'.
  injection H1' as <-. injection H2' as <-.
  assert (Hwf : well_formed merged).
  { unfold well_formed in *. rewrite Forall_forall in *.
    intros r Hr. rewrite Hrows in Hr. apply In_join_rows in Hr.
    destruct Hr as [a' [b' [Ha [Hb [_ ->]]]]].
    apply in_map_iff in Ha. destruct Ha as [a [<- Ha]].
    apply in_map_iff in Hb. destruct Hb as [b [<- Hb]].
    pose proof (index_of_lt KEY (columns df2) ri H2) as Hlt.
    rewrite Hcols, !length_app, !length_map, update_at_length.
    rewrite !drop_at_length; rewrite ?update_at_length;
      rewrite ?(Hwf1 a Ha), ?(Hwf2 b Hb); auto. }
  split; [assumption|]. intros matched Hs.
  apply select_completed_yes_inr in Hs.
  destruct Hs as [i [_ [Hc Hr]]]. split; [assumption|].
  unfold well_formed in *. rewrite Hc, Hr. rewrite Forall_forall in *.
  intros r Hin. apply filter_In in Hin. now apply Hwf.
Qed.

Lemma joined_table_of_the_scenario_well_formed :
  well_formed Sample.joined
  /\ forall matched, select_completed_yes Sample.joined = inr matched ->
       columns matched = columns Sample.joined /\ well_formed matched.
Proof.
  assert (V1 : valid_table [KEY; STATUS] Sample.aloha) by valid_sample.
  assert (V2 : valid_table [KEY] Sample.unbilled) by valid_sample.
  exact (joined_and_filtered_tables_well_formed Sample.aloha Sample.unbilled
           Sample.joined V1 V2 eq_refl).
Defined.

(** ** When the join raises *)

Lemma length_append (a b : string) :
  String.length (a +++ b) = String.length a + String.length b.
Proof. induction a as [|c a IH]; simpl; [reflexivity | now rewrite IH]. Qed.

Lemma append_inv_tail (a b s : string) : a +++ s = b +++ s -> a = b.
Proof.
  revert b. induction a as [|c a IH]; intros [|d b] H; simpl in H.
  - reflexivity.
  - apply (f_equal String.length) in H. simpl in H.
    rewrite length_append in H. lia.
  - apply (f_equal String.length) in H. simpl in H.
    rewrite length_append in H. lia.
  - injection H as -> H. f_equal. now apply IH.
Qed.

Lemma append_suffix_changes (c s : string) : s <> "" -> c +++ s <> c.
Proof.
  intros Hs H. apply (f_equal String.length) in H.
  rewrite length_append in H. destruct s; [congruence | simpl in H; lia].
Qed.

(** The labels that [suffix_dups] reports, when the labels before renaming
    were distinct: the renamed labels that an earlier renamed label already
    has. *)
Lemma suffix_dups_In (f : string -> string) (pre t : list string) (x : string) :
  In x (select (mask_and (duplicated_from (map f pre) (map f t))
                         (map negb (duplicated_from pre t)))
               (map f t)) ->
  exists a b, In a (pre ++ t) /\ In b t /\ a <> b /\ f a = f b /\ x = f b.
Proof.
  revert pre. induction t as [|y t IH]; intros pre; simpl; [tauto|].
  destruct (existsb (String.eqb (f y)) (map f pre)) eqn:Ef;
    destruct (existsb (String.eqb y) pre) eqn:Ey; simpl.
  - intros H. destruct (IH (y :: pre) H) as [a [b [Ha [Hb [Hn [He ->]]]]]].
    exists a, b. repeat split; auto.
    simpl in Ha. rewrite in_app_iff in *. simpl. tauto.
  - intros [<-|H].
    + apply existsb_eqb_In, in_map_iff in Ef.
      destruct Ef as [a [He Ha]]. exists a, y.
      repeat split; auto; [apply in_or_app; now left|].
      intros ->. apply existsb_eqb_not_In in Ey. contradiction.
    + destruct (IH (y :: pre) H) as [a [b [Ha [Hb [Hn [He ->]]]]]].
      exists a, b. repeat split; auto.
      simpl in Ha. rewrite in_app_iff in *. simpl. tauto.
  - intros H. destruct (IH (y :: pre) H) as [a [b [Ha [Hb [Hn [He ->]]]]]].
    exists a, b. repeat split; auto.
    simpl in Ha. rewrite in_app_iff in *. simpl. tauto.
  - intros H. destruct (IH (y :: pre) H) as [a [b [Ha [Hb [Hn [He ->]]]]]].
    exists a, b. repeat split; auto.
    simpl in Ha. rewrite in_app_iff in *. simpl. tauto.
Qed.

Lemma suffix_dups_found (f : string -> string) (pre t : list string)
    (a b : string) :
  NoDup t -> (forall x, In x t -> ~ In x pre) ->
  In a (pre ++ t) -> In b t -> a <> b -> f a = f b ->
  select (mask_and (duplicated_from (map f pre) (map f t))
                   (map negb (duplicated_from pre t)))
         (map f t) <> [].
Proof.
  revert pre a b. induction t as [|y t IH]; intros pre a b Hnd Hpre Ha Hb Hn He;
    [contradiction|].
  apply NoDup_cons_iff in Hnd. destruct Hnd as [Hy Ht]. simpl.
  assert (Ey : existsb (String.eqb y) pre = false).
  { apply existsb_eqb_not_In. apply Hpre. now left. }
  rewrite Ey. simpl.
  destruct (existsb (String.eqb (f y)) (map f pre)) eqn:Ef; simpl;
    [discriminate|].
  assert (Hpre' : forall x, In x t -> ~ In x (y :: pre)).
  { intros x Hx [->|Hin]; [contradiction|].
    apply (Hpre x); [now right | assumption]. }
  assert (Hnf : forall z, In z pre -> f z <> f y).
  { intros z Hz E. apply existsb_eqb_not_In in Ef. apply Ef.
    apply in_map_iff. now exists z. }
  apply in_app_or in Ha. destruct Hb as [<-|Hb].
  - destruct Ha as [Ha|[E|Ha]].
    + now apply Hnf in Ha.
    + congruence.
    + apply (IH (y :: pre) y a); auto.
      apply in_or_app. left. now left.
  - destruct Ha as [Ha|[E|Ha]].
    + apply (IH (y :: pre) a b); auto. apply in_or_app. left. now right.
    + subst a. apply (IH (y :: pre) y b); auto.
      apply in_or_app. left. now left.
    + apply (IH (y :: pre) a b); auto. apply in_or_app. now right.
Qed.

(** Renaming with a suffix repeats a label exactly when some renamed label
    with its suffix is already a label that is not renamed itself. *)
Lemma renamer_clash (ov cols : list string) (suffix : string) :
  suffix <> "" -> NoDup cols -> incl ov cols ->
  (suffix_dups cols (map (renamer ov suffix) cols) <> [] <->
   exists c, In c ov /\ In (c +++ suffix) cols /\ ~ In (c +++ suffix) ov).
Proof.
  intros Hs Hnd Hincl. unfold suffix_dups, duplicated.
  change (@nil string) with (map (renamer ov suffix) []) at 1. split.
  - intros H.
    destruct (select _ _) as [|x l] eqn:E; [congruence|].
    assert (Hx : In x (x :: l)) by now left. rewrite <- E in Hx.
    apply suffix_dups_In in Hx.
    destruct Hx as [a [b [Ha [Hb [Hn [He _]]]]]]. simpl in Ha.
    unfold renamer in He.
    destruct (existsb (String.eqb a) ov) eqn:Ea;
      destruct (existsb (String.eqb b) ov) eqn:Eb.
    + apply append_inv_tail in He. contradiction.
    + exists a. rewrite He. apply existsb_eqb_In in Ea.
      apply existsb_eqb_not_In in Eb. auto.
    + exists b. rewrite <- He. apply existsb_eqb_In in Eb.
      apply existsb_eqb_not_In in Ea. auto.
    + contradiction.
  - intros [c [Hc [Hin Hout]]].
    assert (Hne : c <> c +++ suffix).
    { intros E. symmetry in E. now apply append_suffix_changes in E. }
    assert (He : renamer ov suffix c = renamer ov suffix (c +++ suffix)).
    { now rewrite renamer_in, renamer_out. }
    apply (suffix_dups_found (renamer ov suffix) [] cols c (c +++ suffix)
             Hnd (fun x _ H => H) (Hincl c Hc) Hin Hne He).
Qed.

Lemma merged_of_decided (df1 df2 : DataFrame) (li ri : nat) :
  index_of KEY (columns df1) = Some li ->
  index_of KEY (columns df2) = Some ri ->
  let rcols := drop_at ri (columns df2) in
  let to_rename := overlap (columns df1) rcols in
  let dups :=
    suffix_dups (columns df1)
      (map (renamer to_rename "_aloha") (columns df1))
    ++ suffix_dups rcols (map (renamer to_rename "_unbilled") rcols) in
  (dups = [] /\ exists merged, merged_of df1 df2 = inr merged)
  \/ (dups <> [] /\ merged_of df1 df2 = inl (MergeError dups)).
Proof.
  intros H1 H2. cbv zeta.
  unfold merged_of, astype_str_column. rewrite H1, H2.
  unfold merge. cbn [columns rows]. rewrite H1, H2.
  unfold SUFFIXES.
  change (String.eqb "_aloha" "") with false.
  rewrite andb_false_r. cbn [andb].
  match goal with |- context [truthy_list ?d] => destruct d eqn:Ed end.
  - left. split; [reflexivity|]. eexists. reflexivity.
  - right. split; [discriminate | reflexivity].
Qed.

(** X13: on two validated tables the join raises MergeError exactly when
    some label other than the key is in both tables and its "_aloha" form
    is already a label of the first table only, or its "_unbilled" form a
    label of the second table only; in every other case it returns a
    table. *)
Theorem merge_error_exactly_on_label_clash (df1 df2 : DataFrame) :
  valid_table [KEY; STATUS] df1 ->
  valid_table [KEY] df2 ->
  ((exists dups, merged_of df1 df2 = inl (MergeError dups))
   <-> label_clash df1 df2)
  /\ ((exists merged, merged_of df1 df2 = inr merged)
      <-> ~ label_clash df1 df2).
Proof.
  intros V1 V2.
  destruct (valid_table_key [KEY; STATUS] df1) as [li [H1 _]];
    [now left | assumption |].
  destruct (valid_table_key [KEY] df2) as [ri [H2 _]];
    [now left | assumption |].
  destruct V1 as [Hnd1 _]. destruct V2 as [Hnd2 _].
  pose proof (merged_of_decided df1 df2 li ri H1 H2) as D. cbv zeta in D.
  set (rcols := drop_at ri (columns df2)) in *.
  set (ov := overlap (columns df1) rcols) in *.
  assert (Hkey_r : ~ In KEY rcols)
    by now apply (drop_at_index_of_not_In KEY (columns df2) ri).
  assert (Hr_in : forall c, c <> KEY -> In c (columns df2) -> In c rcols)
    by (intros c Hne Hc; now apply (In_drop_at_other KEY (columns df2) ri)).
  assert (Hr_sub : forall c, In c rcols -> In c (columns df2) /\ c <> KEY).
  { intros c Hc. split; [now apply In_drop_at in Hc | congruence]. }
  assert (Hndr : NoDup rcols) by now apply NoDup_drop_at.
  assert (Hi1 : incl ov (columns df1)).
  { intros c Hc. apply overlap_In in Hc. tauto. }
  assert (Hi2 : incl ov rcols).
  { intros c Hc. apply overlap_In in Hc. tauto. }
  assert (Ha : forall c, c +++ "_aloha" <> KEY)
    by (intros c; now apply append_suffix_neq).
  assert (Hu : forall c, c +++ "_unbilled" <> KEY)
    by (intros c; now apply append_suffix_neq).
  assert (Hclash :
    suffix_dups (columns df1) (map (renamer ov "_aloha") (columns df1))
    ++ suffix_dups rcols (map (renamer ov "_unbilled") rcols) <> []
    <-> label_clash df1 df2).
  { unfold label_clash. split.
    - intros H.
      destruct (suffix_dups (columns df1) _) as [|x l] eqn:E1.
      + simpl in H.
        apply (renamer_clash ov rcols "_unbilled") in H; auto;
          [|discriminate].
        destruct H as [c [Hc [Hin Hout]]]. apply overlap_In in Hc.
        destruct Hc as [Hc1 Hcr]. apply Hr_sub in Hcr.
        exists c. repeat split; try tauto. right.
        split; [now apply Hr_sub|]. intros Hx. apply Hout.
        apply overlap_In. auto.
      + assert (H1' : suffix_dups (columns df1)
                        (map (renamer ov "_aloha") (columns df1)) <> [])
          by (rewrite E1; discriminate).
        apply (renamer_clash ov (columns df1) "_aloha") in H1'; auto;
          [|discriminate].
        destruct H1' as [c [Hc [Hin Hout]]]. apply overlap_In in Hc.
        destruct Hc as [Hc1 Hcr]. apply Hr_sub in Hcr.
        exists c. repeat split; try tauto. left.
        split; [assumption|]. intros Hx. apply Hout.
        apply overlap_In. split; [assumption|]. now apply Hr_in.
    - intros [c [Hne [Hc1 [Hc2 [[Hin Hout]|[Hin Hout]]]]]].
      + assert (S : suffix_dups (columns df1)
                      (map (renamer ov "_aloha") (columns df1)) <> []).
        { apply renamer_clash; auto; [discriminate|].
          exists c. split; [apply overlap_In; auto|].
          split; [assumption|]. intros Hx. apply Hi2, Hr_sub in Hx. tauto. }
        intros E. apply app_eq_nil in E. tauto.
      + assert (S : suffix_dups rcols
                      (map (renamer ov "_unbilled") rcols) <> []).
        { apply renamer_clash; auto; [discriminate|].
          exists c. split; [apply overlap_In; auto|].
          split; [now apply Hr_in|]. intros Hx. apply Hi1 in Hx. tauto. }
        intros E. apply app_eq_nil in E. tauto. }
  destruct D as [[Dn [m Em]]|[Dn Ee]].
  - split.
    + split.
      * intros [d Ed]. rewrite Em in Ed. discriminate Ed.
      * intros Hc. apply Hclash in Hc. contradiction.
    + split; [|now exists m].
      intros _ Hc. apply Hclash in Hc. contradiction.
  - split.
    + split; [intros _; now apply Hclash | eauto].
    + split.
      * intros [m Em]. rewrite Ee in Em. discriminate Em.
      * intros Hc. exfalso. apply Hc. now apply Hclash.
Qed.

Lemma merge_error_on_the_suffixed_label :
  ((exists dups,
      merged_of Sample.aloha_with_suffixed_label Sample.unbilled_with_x
      = inl (MergeError dups))
   <-> label_clash Sample.aloha_with_suffixed_label Sample.unbilled_with_x)
  /\ ((exists merged,
         merged_of Sample.aloha_with_suffixed_label Sample.unbilled_with_x
         = inr merged)
      <-> ~ label_clash Sample.aloha_with_suffixed_label
              Sample.unbilled_with_x).
Proof.
  apply merge_error_exactly_on_label_clash; valid_sample.
Defined.

(** ** The branch for no file *)

Lemma append_inv_head_text (p a b : string) : p +++ a = p +++ b -> a = b.
Proof.
  induction p as [|c p IH]; simpl; [auto|]. intros [= H]. now apply IH.
Qed.

(** X14: [read_table] answers "No file uploaded" exactly when it is given
    no file; the script calls it only on an upload that is there, so no run
    shows that message for either file. *)
Theorem no_file_message_is_never_shown
    (read_csv read_excel : list Byte.byte -> string + DataFrame)
    (to_excel : string -> DataFrame -> exception + list Byte.byte)
    (file1 file2 : option UploadedFile) :
  (forall file,
     read_table read_csv read_excel file = (None, Some MSG_NO_FILE)
     <-> file = None)
  /\ ~ In ("File 1 (Aloha): " +++ MSG_NO_FILE)
         (errors (fst (script read_csv read_excel to_excel file1 file2)))
  /\ ~ In ("File 2 (Unbilled): " +++ MSG_NO_FILE)
         (errors (fst (script read_csv read_excel to_excel file1 file2))).
Proof.
  assert (Hiff : forall file,
            read_table read_csv read_excel file = (None, Some MSG_NO_FILE)
            <-> file = None).
  { intros [f|]; [|split; reflexivity]. unfold read_table.
    split; [|discriminate].
    destruct (parse read_csv read_excel f) as [[e|df]|]; simpl;
      try (intros H; discriminate H).
    destruct (empty df); intros H; discriminate H. }
  assert (Hslot : forall file,
            snd (read_slot read_csv read_excel file) <> Some MSG_NO_FILE).
  { intros [f|]; [|discriminate]. unfold read_slot. intros H.
    pose proof (read_table_shape read_csv read_excel (Some f)) as S.
    destruct (read_table read_csv read_excel (Some f)) as [[d|] [m|]] eqn:E;
      try contradiction; try discriminate H.
    cbn [snd] in H. injection H as ->.
    apply Hiff in E. discriminate E. }
  assert (Hval : forall df req label m,
            validate_columns df req label = Some m ->
            exists rest, m = label +++ " is missing required column(s): "
                             +++ rest).
  { intros df req label m. unfold validate_columns.
    destruct (truthy_list _); [|discriminate].
    intros [= <-]. eexists. reflexivity. }
  split; [exact Hiff|]. split; intros H; apply script_errors in H;
    destruct H as [[e [He Hm]]|[[e [He Hm]]|[d1 [d2 [_ [_ H]]]]]].
  - apply (append_inv_head_text "File 1 (Aloha): ") in Hm. subst e.
    now apply Hslot in He.
  - discriminate Hm.
  - destruct H as [H|[H|[_ [_ [m [_ [_ H]]]]]]].
    + apply Hval in H. destruct H as [rest H]. discriminate H.
    + apply Hval in H. destruct H as [rest H]. discriminate H.
    + discriminate H.
  - discriminate Hm.
  - apply (append_inv_head_text "File 2 (Unbilled): ") in Hm. subst e.
    now apply Hslot in He.
  - destruct H as [H|[H|[_ [_ [m [_ [_ H]]]]]]].
    + apply Hval in H. destruct H as [rest H]. discriminate H.
    + apply Hval in H. destruct H as [rest H]. discriminate H.
    + discriminate H.
Qed.

(** ** Keys held as floats *)

(** Two validated tables with the key 123: held as a float in the first
    (its column has a blank) and as the text "123", or as the integer 123,
    in the second.  The float becomes the text "123.0" and no row is
    joined. *)
Lemma C3_float_key_does_not_join :
  valid_table [KEY; STATUS] Sample.aloha_float_key
  /\ valid_table [KEY] Sample.unbilled_text_key
  /\ valid_table [KEY] Sample.unbilled_number_key
  /\ lookup Sample.aloha_float_key KEY [CFloat "123.0"; CStr "Yes"]
     = Some (CFloat "123.0")
  /\ lookup Sample.unbilled_text_key KEY [CStr "123"; CInt 50]
     = Some (CStr "123")
  /\ merged_of Sample.aloha_float_key Sample.unbilled_text_key
     = inr (mkDataFrame ["Appointment ID"; "Completed"; "Amount"] [])
  /\ merged_of Sample.aloha_float_key Sample.unbilled_number_key
     = inr (mkDataFrame ["Appointment ID"; "Completed"; "Amount"] []).
Proof.
  split; [valid_sample|]. split; [valid_sample|]. split; [valid_sample|].
  repeat split.
Qed.

(** ** The export, read back *)





